(** * Holiday Calendar API: ICS encoder, holiday resolver, request validation

    A shallow embedding of [rapidapi-deployment/server.js] and the
    properties of its three cooperating pieces:

    - the ICS encoder ([generateUID], [formatDate], [formatDateTimeUTC],
      [escapeText], [generateICS]);
    - the holiday resolver ([fetchHolidays]) with its static table
      [enhancedHolidays];
    - the validation middleware ([validateHolidayRequest]);
    - the route [GET /holidays] that chains them, and the choice of the
      rate limiter ([rateLimitBySubscription]).

    Modelling conventions.  A JavaScript string is a [string] holding the
    bytes of its UTF-8 encoding, so an ASCII character is one byte and every
    other character is a run of bytes above 127.  The functions of the
    service look for ASCII characters only, and on such bytes they are exact;
    the white space that [parseInt] skips is recognised in its encoded form.
    The case mappings [toUpperCase] and [toLowerCase] are those of JavaScript
    on ASCII texts ([ascii_text]), which is where the service's own data
    lives; a statement about the result of a case mapping on a text that
    reaches it from outside says so in a hypothesis.  A number that the
    service prints ([year]) is an integer [Z], printed in plain decimal as
    JavaScript prints integers of that size.  The wall clock and the network
    are part of an explicit [World] that every effectful function threads. *)

From Stdlib Require Import ZArith Ascii DecimalString DecimalZ DecimalPos.
From Stdlib Require String.
From stdpp Require Import base option list gmap strings.

Local Open Scope Z_scope.

(** ** JavaScript strings *)

Module JsString.

(** [s.replace(/c/g, r)] for a one-character pattern [c]. *)
Fixpoint replace_char (c : ascii) (r : string) (s : string) : string :=
  match s with
  | EmptyString => EmptyString
  | String a rest =>
      if Ascii.eqb a c then r +:+ replace_char c r rest
      else String a (replace_char c r rest)
  end.

Definition is_digit (a : ascii) : bool :=
  let n := nat_of_ascii a in (48 <=? n)%nat && (n <=? 57)%nat.

Definition is_upper (a : ascii) : bool :=
  let n := nat_of_ascii a in (65 <=? n)%nat && (n <=? 90)%nat.

Definition is_lower (a : ascii) : bool :=
  let n := nat_of_ascii a in (97 <=? n)%nat && (n <=? 122)%nat.

(** The character class [[a-zA-Z0-9]]. *)
Definition is_alnum (a : ascii) : bool :=
  is_lower a || is_upper a || is_digit a.

(** [s.replace(/[...]/g, '')] for a character class given as a predicate:
    every character of the class is removed. *)
Fixpoint remove_if (cls : ascii -> bool) (s : string) : string :=
  match s with
  | EmptyString => EmptyString
  | String a rest =>
      if cls a then remove_if cls rest else String a (remove_if cls rest)
  end.

(** [s.replace(/[^a-zA-Z0-9]/g, '')]. *)
Definition remove_non_alnum : string -> string :=
  remove_if (fun a => negb (is_alnum a)).

(** The case mappings on the ASCII letters; every other byte is left as it
    is.  On an ASCII text this is what JavaScript does.  A text with other
    characters may be mapped differently there (the sharp s becomes [SS]),
    so what is said of the case mapping of a text from outside assumes
    [ascii_text]. *)
Definition lower_char (a : ascii) : ascii :=
  if is_upper a then ascii_of_nat (nat_of_ascii a + 32) else a.

Definition upper_char (a : ascii) : ascii :=
  if is_lower a then ascii_of_nat (nat_of_ascii a - 32) else a.

Fixpoint map_chars (f : ascii -> ascii) (s : string) : string :=
  match s with
  | EmptyString => EmptyString
  | String a rest => String (f a) (map_chars f rest)
  end.

Definition toLowerCase : string -> string := map_chars lower_char.
Definition toUpperCase : string -> string := map_chars upper_char.

(** [String(n)] / [`${n}`] for an integer [n]: plain decimal digits, with a
    minus sign in front of a negative number.  (JavaScript prints this way
    up to 21 digits, far beyond any year the service handles.) *)
Definition string_of_Z (n : Z) : string :=
  NilEmpty.string_of_int (Z.to_int n).

(** Truthiness of a string value that may be [undefined]: [undefined] and
    the empty string are falsy. *)
Definition truthy (o : option string) : bool :=
  match o with
  | Some (String _ _) => true
  | _ => false
  end.

(** [lines.join(sep)]. *)
Fixpoint join (sep : string) (lines : list string) : string :=
  match lines with
  | [] => EmptyString
  | [l] => l
  | l :: rest => l +:+ sep +:+ join sep rest
  end.

(** The character [c] occurs in [s]. *)
Fixpoint has_char (c : ascii) (s : string) : bool :=
  match s with
  | EmptyString => false
  | String a rest => Ascii.eqb a c || has_char c rest
  end.

(** [s.startsWith(p)]. *)
Fixpoint starts_with (p s : string) : bool :=
  match p, s with
  | EmptyString, _ => true
  | String a p', String b s' => Ascii.eqb a b && starts_with p' s'
  | String _ _, EmptyString => false
  end.

(** [s.includes(p)] for strings. *)
Fixpoint includes (p s : string) : bool :=
  starts_with p s ||
  match s with
  | EmptyString => false
  | String _ rest => includes p rest
  end.

Definition LF : ascii := "010"%char.
Definition CR : ascii := "013"%char.
Definition CRLF : string := String CR (String LF EmptyString).

End JsString.

Import JsString.

(** ** JavaScript values, exceptions, and the world *)

Module Js.

(** A value parsed from a JSON response body.  Numbers are kept as
    integers: the service only passes them on or compares them. *)
#[local] Unset Elimination Schemes.
Inductive jsval :=
| JUndefined
| JNull
| JBool (b : bool)
| JNum (z : Z)
| JStr (s : string)
| JArr (items : list jsval)
| JObj (props : list (string * jsval)).
#[local] Set Elimination Schemes.

(** The result of evaluating an expression: a value, or an exception
    carrying its message. *)
Inductive outcome (A : Type) :=
| Ok (a : A)
| Throw (e : string).
Arguments Ok {A} a.
Arguments Throw {A} e.

(** [new Date()] as the encoder uses it: the value is only ever asked for
    its ISO rendering [YYYY-MM-DDTHH:mm:ss.sssZ]. *)
Record Date := { toISOString : string }.

(** The environment of a request.  [clock n] is what the [n]-th reading of
    the wall clock returns, and [ticks] counts the readings made so far.
    [network sent url] is how a GET of [url] ends (response body, or the
    request failing or timing out) after the requests [sent]; [requests]
    records the requests made so far. *)
Record World := {
  clock : nat -> Date;
  ticks : nat;
  network : list string -> string -> outcome jsval;
  requests : list string
}.

(** Computations that read the clock, use the network and may throw. *)
Definition M (A : Type) : Type := World -> outcome A * World.

Definition ret {A} (a : A) : M A := fun w => (Ok a, w).

Definition bind {A B} (m : M A) (k : A -> M B) : M B :=
  fun w =>
    match m w with
    | (Ok a, w') => k a w'
    | (Throw e, w') => (Throw e, w')
    end.

(** [try { m } catch (error) { handler(error) }]. *)
Definition try_catch {A} (m : M A) (handler : string -> M A) : M A :=
  fun w =>
    match m w with
    | (Ok a, w') => (Ok a, w')
    | (Throw e, w') => handler e w'
    end.

(** A pure evaluation that may throw, run inside [M]. *)
Definition lift {A} (o : outcome A) : M A := fun w => (o, w).

Definition new_Date : M Date :=
  fun w =>
    (Ok (clock w (ticks w)),
     {| clock := clock w; ticks := S (ticks w);
        network := network w; requests := requests w |}).

(** [await axios.get(url, { timeout: 3000 })], yielding [response.data]. *)
Definition axios_get (url : string) : M jsval :=
  fun w =>
    (network w (requests w) url,
     {| clock := clock w; ticks := ticks w;
        network := network w; requests := requests w ++ [url] |}).

(** [items.map(f)] where [f] may throw: the first exception ends the map. *)
Fixpoint map_throwing {A B} (f : A -> outcome B) (items : list A)
  : outcome (list B) :=
  match items with
  | [] => Ok []
  | x :: rest =>
      match f x with
      | Throw e => Throw e
      | Ok y =>
          match map_throwing f rest with
          | Throw e => Throw e
          | Ok ys => Ok (y :: ys)
          end
      end
  end.

End Js.

Import Js.

Notation "x <- m ;; k" := (bind m (fun x => k))
  (at level 100, m at next level, right associativity).

(** ** The ICS encoder *)

(** A holiday record as the encoder reads it.  [description] and [observed]
    may be [undefined]. *)
Record holiday := Holiday {
  date : string;
  name : string;
  description : option string;
  type : string;
  observed : option string
}.

(** The [options] argument of [generateICS], which is also the validated
    query [{ country, year, region }]. *)
Record options := Options {
  country : string;
  year : Z;
  region : option string
}.

Module Encoder.

Definition generateUID (h : holiday) (country : string) (year : Z) : string :=
  let dateStr := replace_char "-" "" (date h) in
  let nameHash := toLowerCase (remove_non_alnum (name h)) in
  dateStr +:+ "-" +:+ nameHash +:+ "-" +:+ country +:+ "-" +:+
    string_of_Z year +:+ "@holiday-calendar-api.com".

Definition formatDate (dateStr : string) : string :=
  replace_char "-" "" dateStr.

(** [s.replace(/\.\d{3}/, '')]: the leftmost dot followed by three digits
    is removed, once. *)
Fixpoint remove_first_millis (s : string) : string :=
  match s with
  | EmptyString => EmptyString
  | String a rest =>
      if Ascii.eqb a "." then
        match rest with
        | String d1 (String d2 (String d3 rest')) =>
            if is_digit d1 && is_digit d2 && is_digit d3 then rest'
            else String a (remove_first_millis rest)
        | _ => String a (remove_first_millis rest)
        end
      else String a (remove_first_millis rest)
  end.

Definition formatDateTimeUTC (d : Date) : string :=
  remove_first_millis
    (remove_if (fun a => Ascii.eqb a "-" || Ascii.eqb a ":") (toISOString d)).

(** Five global replacements, chained in the order of the source. *)
Definition escapeText (text : string) : string :=
  replace_char CR ""
    (replace_char LF "\n"
      (replace_char "," "\,"
        (replace_char ";" "\;"
          (replace_char "\" "\\" text)))).

Definition calendarName (opts : options) : string :=
  match region opts with
  | Some (String _ _ as r) =>
      country opts +:+ "-" +:+ r +:+ " Public Holidays " +:+
        string_of_Z (year opts)
  | _ => country opts +:+ " Public Holidays " +:+ string_of_Z (year opts)
  end.

Definition prodId (opts : options) : string :=
  "-//Holiday Calendar API//Holiday Calendar " +:+ string_of_Z (year opts)
    +:+ "//EN".

(** The initial value of the array [icsContent]. *)
Definition header (opts : options) : list string :=
  [ "BEGIN:VCALENDAR";
    "VERSION:2.0";
    "PRODID:" +:+ prodId opts;
    "CALSCALE:GREGORIAN";
    "METHOD:PUBLISH";
    "X-WR-CALNAME:" +:+ calendarName opts;
    "X-WR-CALDESC:Public holidays calendar generated by Holiday Calendar API";
    "X-WR-TIMEZONE:UTC";
    "X-PUBLISHED-TTL:PT1H";
    "X-ORIGINAL-URL:https://rapidapi.com/holiday-calendar-api" ].

(** One iteration of [holidays.forEach]: the pushes made for one holiday
    onto the array [icsContent]. *)
Definition push_event (timestamp : string) (opts : options)
    (icsContent : list string) (h : holiday) : list string :=
  let uid := generateUID h (country opts) (year opts) in
  let dtstart := formatDate (date h) in
  let icsContent :=
    icsContent ++
      [ "BEGIN:VEVENT";
        "UID:" +:+ uid;
        "DTSTAMP:" +:+ timestamp;
        "DTSTART;VALUE=DATE:" +:+ dtstart;
        "SUMMARY:" +:+ escapeText (name h);
        "STATUS:CONFIRMED";
        "TRANSP:TRANSPARENT";
        "CLASS:PUBLIC";
        "PRIORITY:5" ] in
  let icsContent :=
    match description h with
    | Some (String _ _ as d) =>
        icsContent ++ ["DESCRIPTION:" +:+ escapeText d]
    | _ => icsContent
    end in
  let category := toUpperCase (type h) in
  let icsContent := icsContent ++ ["CATEGORIES:" +:+ category +:+ ",HOLIDAY"] in
  let icsContent :=
    match observed h with
    | Some (String _ _ as o) =>
        if String.eqb o (date h) then icsContent
        else icsContent ++ ["X-OBSERVED-DATE:" +:+ formatDate o]
    | _ => icsContent
    end in
  icsContent ++ ["END:VEVENT"].

(** The lines pushed for one holiday. *)
Definition event_of (timestamp : string) (opts : options) (h : holiday)
  : list string :=
  push_event timestamp opts [] h.

(** The array [icsContent] as it stands when it is joined. *)
Definition ics_lines (timestamp : string) (holidays : list holiday)
    (opts : options) : list string :=
  fold_left (push_event timestamp opts) holidays (header opts)
    ++ ["END:VCALENDAR"].

Definition generateICS (holidays : list holiday) (opts : options) : M string :=
  now <- new_Date ;;
  let timestamp := formatDateTimeUTC now in
  ret (join CRLF (ics_lines timestamp holidays opts)).

End Encoder.

Import Encoder.

(** ** The escaping rule, as the specification words it *)

Module EscapingRule.

(** What one character of a free-text field becomes: backslash, semicolon
    and comma get a backslash in front, a newline becomes backslash-n, a
    carriage return disappears, anything else stays. *)
Definition escape_char (a : ascii) : string :=
  if Ascii.eqb a "\" then "\\"
  else if Ascii.eqb a ";" then "\;"
  else if Ascii.eqb a "," then "\,"
  else if Ascii.eqb a LF then "\n"
  else if Ascii.eqb a CR then ""
  else String a "".

(** The rule applied to a text in one pass: nothing that a substitution
    writes is looked at again. *)
Fixpoint escape_once (text : string) : string :=
  match text with
  | EmptyString => EmptyString
  | String a rest => escape_char a +:+ escape_once rest
  end.

End EscapingRule.

Import EscapingRule.

(** ** Reading a calendar document *)

Module Ics.

(** The event blocks among the lines of a document: each run of lines from
    a [BEGIN:VEVENT] line to the next [END:VEVENT] line.  [cur] is the
    block being read, if one is open. *)
Fixpoint blocks_from (cur : option (list string)) (lines : list string)
  : list (list string) :=
  match lines with
  | [] => []
  | l :: rest =>
      match cur with
      | None =>
          if String.eqb l "BEGIN:VEVENT" then blocks_from (Some [l]) rest
          else blocks_from None rest
      | Some b =>
          if String.eqb l "END:VEVENT" then
            (b ++ [l]) :: blocks_from None rest
          else blocks_from (Some (b ++ [l])) rest
      end
  end.

Definition event_blocks (lines : list string) : list (list string) :=
  blocks_from None lines.

(** The lines of a document text: the pieces between CRLF terminators,
    as [text.split('\r\n')] gives them.  [cur] is the line being read. *)
Fixpoint lines_from (cur : string) (text : string) : list string :=
  match text with
  | EmptyString => [cur]
  | String a rest =>
      match rest with
      | String b rest' =>
          if Ascii.eqb a CR && Ascii.eqb b LF then
            cur :: lines_from EmptyString rest'
          else lines_from (cur +:+ String a EmptyString) rest
      | EmptyString => [cur +:+ String a EmptyString]
      end
  end.

Definition doc_lines (text : string) : list string :=
  lines_from EmptyString text.

(** A field that is written into a line unescaped keeps the line whole
    when it has no carriage return. *)
Definition line_safe (s : string) : bool := negb (has_char CR s).

Definition option_line_safe (o : option string) : bool :=
  match o with
  | Some s => line_safe s
  | None => true
  end.

(** The fields of a record that reach the document unescaped. *)
Definition holiday_line_safe (h : holiday) : bool :=
  line_safe (date h) && line_safe (type h) && option_line_safe (observed h).

Definition options_line_safe (opts : options) : bool :=
  line_safe (country opts) && option_line_safe (region opts).

(** Two lines of two renders agree, or they are the [DTSTAMP] lines of
    the two renders. *)
Definition same_but_dtstamp (ts1 ts2 : string) (l1 l2 : string) : Prop :=
  l1 = l2 \/ (l1 = "DTSTAMP:" +:+ ts1 /\ l2 = "DTSTAMP:" +:+ ts2).

(** Two lines of two renders agree, or they are the calendar-name lines
    of the two renders. *)
Definition same_but_calname (o1 o2 : options) (l1 l2 : string) : Prop :=
  l1 = l2
  \/ (l1 = "X-WR-CALNAME:" +:+ calendarName o1
      /\ l2 = "X-WR-CALNAME:" +:+ calendarName o2).

End Ics.

Import Ics.

(** ** The holiday resolver *)

Module Resolver.

Definition enhancedHolidays : gmap string (list holiday) :=
  list_to_map [
    ("US-2025", [
      Holiday "2025-01-01" "New Year's Day"
        (Some "The first day of the Gregorian calendar year")
        "public" None;
      Holiday "2025-01-20" "Martin Luther King Jr. Day"
        (Some "Federal holiday honoring civil rights leader Martin Luther King Jr.")
        "public" None;
      Holiday "2025-02-17" "Presidents' Day"
        (Some "Federal holiday honoring all U.S. presidents")
        "public" None;
      Holiday "2025-05-26" "Memorial Day"
        (Some "Federal holiday honoring military personnel who died in service")
        "public" None;
      Holiday "2025-07-04" "Independence Day"
        (Some "Celebration of American independence from Great Britain")
        "public" None;
      Holiday "2025-09-01" "Labor Day"
        (Some "Federal holiday celebrating the contributions of workers")
        "public" None;
      Holiday "2025-10-13" "Columbus Day"
        (Some "Federal holiday commemorating Christopher Columbus")
        "public" None;
      Holiday "2025-11-11" "Veterans Day"
        (Some "Federal holiday honoring military veterans")
        "public" None;
      Holiday "2025-11-27" "Thanksgiving Day"
        (Some "Federal holiday for giving thanks and sharing meals with family")
        "public" None;
      Holiday "2025-12-25" "Christmas Day"
        (Some "Christian holiday celebrating the birth of Jesus Christ")
        "public" None
    ]);
    ("GB-2025", [
      Holiday "2025-01-01" "New Year's Day"
        (Some "The first day of the Gregorian calendar year")
        "public" None;
      Holiday "2025-04-18" "Good Friday"
        (Some "Christian holiday commemorating the crucifixion of Jesus")
        "public" None;
      Holiday "2025-04-21" "Easter Monday"
        (Some "Christian holiday celebrating the resurrection of Jesus")
        "public" None;
      Holiday "2025-05-05" "Early May Bank Holiday"
        (Some "Spring bank holiday in the UK")
        "bank" None;
      Holiday "2025-05-26" "Spring Bank Holiday"
        (Some "Late spring bank holiday in the UK")
        "bank" None;
      Holiday "2025-08-25" "Summer Bank Holiday"
        (Some "Summer bank holiday in England, Wales, and Northern Ireland")
        "bank" None;
      Holiday "2025-12-25" "Christmas Day"
        (Some "Christian holiday celebrating the birth of Jesus Christ")
        "public" None;
      Holiday "2025-12-26" "Boxing Day"
        (Some "Traditional holiday following Christmas Day")
        "public" None
    ]);
    ("CA-2025", [
      Holiday "2025-01-01" "New Year's Day"
        (Some "The first day of the Gregorian calendar year")
        "public" None;
      Holiday "2025-04-18" "Good Friday"
        (Some "Christian holiday commemorating the crucifixion of Jesus")
        "public" None;
      Holiday "2025-04-21" "Easter Monday"
        (Some "Christian holiday celebrating the resurrection of Jesus")
        "public" None;
      Holiday "2025-05-19" "Victoria Day"
        (Some "Canadian federal holiday honoring Queen Victoria")
        "public" None;
      Holiday "2025-07-01" "Canada Day"
        (Some "National holiday celebrating Canadian Confederation")
        "public" None;
      Holiday "2025-09-01" "Labour Day"
        (Some "Federal holiday celebrating the contributions of workers")
        "public" None;
      Holiday "2025-10-13" "Thanksgiving"
        (Some "Canadian holiday for giving thanks")
        "public" None;
      Holiday "2025-11-11" "Remembrance Day"
        (Some "Memorial day for military personnel who died in service")
        "public" None;
      Holiday "2025-12-25" "Christmas Day"
        (Some "Christian holiday celebrating the birth of Jesus Christ")
        "public" None;
      Holiday "2025-12-26" "Boxing Day"
        (Some "Traditional holiday following Christmas Day")
        "public" None
    ]);
    ("DE-2025", [
      Holiday "2025-01-01" "New Year's Day"
        (Some "The first day of the Gregorian calendar year")
        "public" None;
      Holiday "2025-05-01" "Labour Day"
        (Some "German holiday celebrating workers")
        "public" None;
      Holiday "2025-10-03" "German Unity Day"
        (Some "National holiday commemorating German reunification")
        "public" None;
      Holiday "2025-12-25" "Christmas Day"
        (Some "Christian holiday celebrating the birth of Jesus Christ")
        "public" None;
      Holiday "2025-12-26" "Boxing Day"
        (Some "Second day of Christmas")
        "public" None
    ]);
    ("FR-2025", [
      Holiday "2025-01-01" "New Year's Day"
        (Some "The first day of the Gregorian calendar year")
        "public" None;
      Holiday "2025-05-01" "Labour Day"
        (Some "French holiday celebrating workers")
        "public" None;
      Holiday "2025-05-08" "Victory in Europe Day"
        (Some "Commemorates the end of World War II in Europe")
        "public" None;
      Holiday "2025-07-14" "Bastille Day"
        (Some "French National Day")
        "public" None;
      Holiday "2025-08-15" "Assumption Day"
        (Some "Christian holiday")
        "public" None;
      Holiday "2025-11-01" "All Saints Day"
        (Some "Christian holiday honoring all saints")
        "public" None;
      Holiday "2025-11-11" "Armistice Day"
        (Some "Commemorates the end of World War I")
        "public" None;
      Holiday "2025-12-25" "Christmas Day"
        (Some "Christian holiday celebrating the birth of Jesus Christ")
        "public" None
    ])
  ].

(** [v.k] for the property names the adapter reads ([date], [name],
    [localName], [types]).  Reading a property of [undefined] or [null]
    throws; an object yields its own property or [undefined]; no other
    value carries one of these names. *)
Fixpoint own_prop (props : list (string * jsval)) (k : string) : jsval :=
  match props with
  | [] => JUndefined
  | (k', v) :: rest => if String.eqb k' k then v else own_prop rest k
  end.

Definition get_prop (v : jsval) (k : string) : outcome jsval :=
  match v with
  | JUndefined | JNull =>
      Throw "TypeError: Cannot read properties of undefined"
  | JObj props => Ok (own_prop props k)
  | _ => Ok JUndefined
  end.

(** [a === b] for two property values of one parsed object: primitives
    compare by value, while two arrays or objects held by different
    properties are different references. *)
Definition strict_eq (a b : jsval) : bool :=
  match a, b with
  | JUndefined, JUndefined => true
  | JNull, JNull => true
  | JBool x, JBool y => Bool.eqb x y
  | JNum x, JNum y => Z.eqb x y
  | JStr x, JStr y => String.eqb x y
  | _, _ => false
  end.

(** Truthiness of [types?.includes('Public')].  [undefined] and [null]
    short-circuit to [undefined]; arrays and strings have an [includes]
    method; on any other value the call throws. *)
Definition includes_Public (types : jsval) : outcome bool :=
  match types with
  | JUndefined | JNull => Ok false
  | JArr items => Ok (existsb (strict_eq (JStr "Public")) items)
  | JStr s => Ok (includes "Public" s)
  | _ => Throw "TypeError: holiday.types?.includes is not a function"
  end.

(** The object that [fetchHolidays] returns for one holiday.  A source's
    [date] and [name] are passed on as they come, whatever they are. *)
Record holidayObj := HolidayObj {
  o_date : jsval;
  o_name : jsval;
  o_description : jsval;
  o_type : jsval;
  o_observed : jsval
}.

Definition js_of_option (o : option string) : jsval :=
  match o with
  | Some s => JStr s
  | None => JUndefined
  end.

(** An entry of the static table, as the object it is. *)
Definition obj_of_holiday (h : holiday) : holidayObj :=
  {| o_date := JStr (date h);
     o_name := JStr (name h);
     o_description := js_of_option (description h);
     o_type := JStr (type h);
     o_observed := js_of_option (observed h) |}.

(** The callback of [response.data.map]. *)
Definition adapt (item : jsval) : outcome holidayObj :=
  match get_prop item "date" with
  | Throw e => Throw e
  | Ok d =>
  match get_prop item "name" with
  | Throw e => Throw e
  | Ok n =>
  match get_prop item "localName" with
  | Throw e => Throw e
  | Ok localName =>
  match get_prop item "types" with
  | Throw e => Throw e
  | Ok types =>
  match includes_Public types with
  | Throw e => Throw e
  | Ok public =>
      Ok {| o_date := d;
            o_name := n;
            o_description :=
              if negb (strict_eq localName n) then localName else JUndefined;
            o_type := JStr (if public then "public" else "bank");
            o_observed := JUndefined |}
  end end end end end.

(** A source's answer that the loop skips: the request failed, the body
    is not an array, or adapting one of its items throws. *)
Definition unusable (r : outcome jsval) : bool :=
  match r with
  | Throw _ => true
  | Ok (JArr items) =>
      match map_throwing adapt items with
      | Throw _ => true
      | Ok _ => false
      end
  | Ok _ => true
  end.

Definition apis (country : string) (year : Z) : list string :=
  [ "https://date.nager.at/api/v3/PublicHolidays/" +:+ string_of_Z year
      +:+ "/" +:+ country;
    "https://holidayapi.com/v1/holidays?country=" +:+ country +:+ "&year="
      +:+ string_of_Z year;
    "https://calendarific.com/api/v2/holidays?country=" +:+ country
      +:+ "&year=" +:+ string_of_Z year ].

(** The body of the loop over [apis] for one URL: [Some] records is the
    [return] inside the loop, [None] is falling through to the next URL
    (the response is not an array, or the [catch] ran). *)
Definition attempt (apiUrl : string) : M (option (list holidayObj)) :=
  try_catch
    (data <- axios_get apiUrl ;;
     match data with
     | JArr items =>
         hs <- lift (map_throwing adapt items) ;;
         ret (Some hs)
     | _ => ret None
     end)
    (fun _ => ret None).

Fixpoint try_each (urls : list string) : M (option (list holidayObj)) :=
  match urls with
  | [] => ret None
  | apiUrl :: rest =>
      r <- attempt apiUrl ;;
      match r with
      | Some hs => ret (Some hs)
      | None => try_each rest
      end
  end.

(** The key ["{country}-{year}"] contains a dash, so it names no inherited
    property of the table object: the lookup is a lookup of own entries. *)
Definition fallback (country : string) (year : Z) : list holidayObj :=
  let key := country +:+ "-" +:+ string_of_Z year in
  match enhancedHolidays !! key with
  | Some entry => map obj_of_holiday entry
  | None => []
  end.

Definition fetchHolidays (country : string) (year : Z)
    (region : option string) : M (list holidayObj) :=
  r <- try_catch (try_each (apis country year)) (fun _ => ret None) ;;
  match r with
  | Some hs => ret hs
  | None => ret (fallback country year)
  end.

(** A world in which every request times out. *)
Definition offline : World :=
  {| clock := fun _ => {| toISOString := "2025-01-01T00:00:00.000Z" |};
     ticks := 0;
     network := fun _ _ => Throw "timeout of 3000ms exceeded";
     requests := [] |}.

(** A world in which every source answers with the empty array. *)
Definition empty_answers : World :=
  {| clock := fun _ => {| toISOString := "2025-01-01T00:00:00.000Z" |};
     ticks := 0;
     network := fun _ _ => Ok (JArr []);
     requests := [] |}.

(** A world in which the first request of a run times out and the second is
    answered with one holiday. *)
Definition second_answers : World :=
  {| clock := fun _ => {| toISOString := "2025-01-01T00:00:00.000Z" |};
     ticks := 0;
     network := fun sent _ =>
       match sent with
       | [_] =>
           Ok (JArr [JObj [("date", JStr "2025-07-04");
                           ("name", JStr "Independence Day");
                           ("localName", JStr "Independence Day");
                           ("types", JArr [JStr "Public"])]])
       | _ => Throw "timeout of 3000ms exceeded"
       end;
     requests := [] |}.

End Resolver.

Import Resolver.

(** ** Request validation *)

Module Validation.

Definition VALID_COUNTRIES : list string := [
  "AD"; "AE"; "AF"; "AG"; "AI"; "AL"; "AM"; "AO"; "AQ"; "AR"; "AS"; "AT"; "AU"; "AW"; "AX"; "AZ";
  "BA"; "BB"; "BD"; "BE"; "BF"; "BG"; "BH"; "BI"; "BJ"; "BL"; "BM"; "BN"; "BO"; "BQ"; "BR"; "BS";
  "BT"; "BV"; "BW"; "BY"; "BZ"; "CA"; "CC"; "CD"; "CF"; "CG"; "CH"; "CI"; "CK"; "CL"; "CM"; "CN";
  "CO"; "CR"; "CU"; "CV"; "CW"; "CX"; "CY"; "CZ"; "DE"; "DJ"; "DK"; "DM"; "DO"; "DZ"; "EC"; "EE";
  "EG"; "EH"; "ER"; "ES"; "ET"; "FI"; "FJ"; "FK"; "FM"; "FO"; "FR"; "GA"; "GB"; "GD"; "GE"; "GF";
  "GG"; "GH"; "GI"; "GL"; "GM"; "GN"; "GP"; "GQ"; "GR"; "GS"; "GT"; "GU"; "GW"; "GY"; "HK"; "HM";
  "HN"; "HR"; "HT"; "HU"; "ID"; "IE"; "IL"; "IM"; "IN"; "IO"; "IQ"; "IR"; "IS"; "IT"; "JE"; "JM";
  "JO"; "JP"; "KE"; "KG"; "KH"; "KI"; "KM"; "KN"; "KP"; "KR"; "KW"; "KY"; "KZ"; "LA"; "LB"; "LC";
  "LI"; "LK"; "LR"; "LS"; "LT"; "LU"; "LV"; "LY"; "MA"; "MC"; "MD"; "ME"; "MF"; "MG"; "MH"; "MK";
  "ML"; "MM"; "MN"; "MO"; "MP"; "MQ"; "MR"; "MS"; "MT"; "MU"; "MV"; "MW"; "MX"; "MY"; "MZ"; "NA";
  "NC"; "NE"; "NF"; "NG"; "NI"; "NL"; "NO"; "NP"; "NR"; "NU"; "NZ"; "OM"; "PA"; "PE"; "PF"; "PG";
  "PH"; "PK"; "PL"; "PM"; "PN"; "PR"; "PS"; "PT"; "PW"; "PY"; "QA"; "RE"; "RO"; "RS"; "RU"; "RW";
  "SA"; "SB"; "SC"; "SD"; "SE"; "SG"; "SH"; "SI"; "SJ"; "SK"; "SL"; "SM"; "SN"; "SO"; "SR"; "SS";
  "ST"; "SV"; "SX"; "SY"; "SZ"; "TC"; "TD"; "TF"; "TG"; "TH"; "TJ"; "TK"; "TL"; "TM"; "TN"; "TO";
  "TR"; "TT"; "TV"; "TW"; "TZ"; "UA"; "UG"; "UM"; "US"; "UY"; "UZ"; "VA"; "VC"; "VE"; "VG"; "VI";
  "VN"; "VU"; "WF"; "WS"; "YE"; "YT"; "ZA"; "ZM"; "ZW"
].

(** [req.query] when each parameter is a string or [undefined], as for a
    query string without repeated or bracketed parameters.  The query in
    general is [Query.query], further down. *)
Record request := Request {
  q_country : option string;
  q_year : option string;
  q_region : option string
}.

(** What the service answers: a JSON error body with its status and
    [code], or a calendar. *)
Inductive response :=
| JsonError (status : Z) (code : string)
| Calendar (body : string).

(** White space that [parseInt] skips, one byte long: tab, line feed,
    vertical tab, form feed, carriage return, space. *)
Definition is_space (a : ascii) : bool :=
  let n := nat_of_ascii a in
  ((9 <=? n)%nat && (n <=? 13)%nat) || (n =? 32)%nat.

Definition byte_is (a : ascii) (n : nat) : bool := (nat_of_ascii a =? n)%nat.

(** White space two bytes long: the no-break space U+00A0. *)
Definition is_space2 (a b : ascii) : bool := byte_is a 194 && byte_is b 160.

(** White space three bytes long: U+1680, U+2000 to U+200A, the line and
    paragraph separators U+2028 and U+2029, U+202F, U+205F, U+3000 and the
    byte order mark U+FEFF. *)
Definition is_space3 (a b c : ascii) : bool :=
  let n := nat_of_ascii c in
  (byte_is a 225 && byte_is b 154 && byte_is c 128)
  || (byte_is a 226 && byte_is b 128
      && (((128 <=? n)%nat && (n <=? 138)%nat)
          || (n =? 168)%nat || (n =? 169)%nat || (n =? 175)%nat))
  || (byte_is a 226 && byte_is b 129 && byte_is c 159)
  || (byte_is a 227 && byte_is b 128 && byte_is c 128)
  || (byte_is a 239 && byte_is b 187 && byte_is c 191).

Fixpoint skip_space (s : string) : string :=
  match s with
  | String a rest =>
      if is_space a then skip_space rest
      else
        match rest with
        | String b rest2 =>
            if is_space2 a b then skip_space rest2
            else
              match rest2 with
              | String c rest3 =>
                  if is_space3 a b c then skip_space rest3 else s
              | EmptyString => s
              end
        | EmptyString => s
        end
  | EmptyString => s
  end.

(** The value of a digit in the given radix, if it is one. *)
Definition digit_value (radix : Z) (a : ascii) : option Z :=
  let n := Z.of_nat (nat_of_ascii a) in
  let v :=
    if is_digit a then Some (n - 48)
    else if is_lower a then Some (n - 87)
    else if is_upper a then Some (n - 55)
    else None in
  match v with
  | Some d => if d <? radix then Some d else None
  | None => None
  end.

(** The value of the longest prefix of digits; [acc] is [None] until a
    digit has been read. *)
Fixpoint digits_prefix (radix : Z) (s : string) (acc : option Z) : option Z :=
  match s with
  | EmptyString => acc
  | String a rest =>
      match digit_value radix a with
      | Some d =>
          digits_prefix radix rest
            (Some (match acc with Some v => v * radix + d | None => d end))
      | None => acc
      end
  end.

(** [parseInt(s)] with no radix; [None] is [NaN].  The value is exact: a
    double that [parseInt] rounds to is in [2000, 2030] only when the
    exact value is. *)
Definition parseInt (s : string) : option Z :=
  let s := skip_space s in
  let '(sign, s) :=
    match s with
    | String "-" rest => (-1, rest)
    | String "+" rest => (1, rest)
    | _ => (1, s)
    end in
  let '(radix, s) :=
    match s with
    | String "0" (String x rest) =>
        if Ascii.eqb x "x" || Ascii.eqb x "X" then (16, rest) else (10, s)
    | _ => (10, s)
    end in
  match digits_prefix radix s None with
  | Some v => Some (sign * v)
  | None => None
  end.

Definition includes_country (c : string) : bool :=
  existsb (String.eqb c) VALID_COUNTRIES.

(** What the guards of the middleware decide: an early
    [return res.status(...).json({ ..., code })], or the value stored in
    [req.validatedQuery]. *)
Inductive verdict :=
| Reject (status : Z) (code : string)
| Pass (validatedQuery : options).

Definition check_request (req : request) : verdict :=
  match q_country req with
  | Some (String _ _ as country) =>
      if negb (includes_country (toUpperCase country)) then
        Reject 400 "INVALID_COUNTRY"
      else
        match q_year req with
        | Some (String _ _ as year) =>
            match parseInt year with
            | None => Reject 400 "INVALID_YEAR"
            | Some yearInt =>
                if (yearInt <? 2000) || (yearInt >? 2030) then
                  Reject 400 "INVALID_YEAR"
                else
                  Pass {| country := toUpperCase country;
                          year := yearInt;
                          region := option_map toUpperCase (q_region req) |}
            end
        | _ => Reject 400 "MISSING_YEAR"
        end
  | _ => Reject 400 "MISSING_COUNTRY"
  end.

(** The middleware: a rejected request is answered at once and [next] is
    not called; otherwise [next] runs with the validated query. *)
Definition validateHolidayRequest (req : request)
    (next : options -> M response) : M response :=
  match check_request req with
  | Reject status code => ret (JsonError status code)
  | Pass validatedQuery => next validatedQuery
  end.

End Validation.

Import Validation.

(** ** Texts: shapes and the reading of escaped text *)

Module Text.

(** Every character of [s] satisfies [p]. *)
Fixpoint all_chars (p : ascii -> bool) (s : string) : bool :=
  match s with
  | EmptyString => true
  | String a rest => p a && all_chars p rest
  end.

Definition all_digits : string -> bool := all_chars is_digit.

(** The characters that [escapeText] rewrites. *)
Definition is_special (a : ascii) : bool :=
  Ascii.eqb a "\" || Ascii.eqb a ";" || Ascii.eqb a "," || Ascii.eqb a LF
  || Ascii.eqb a CR.

(** How a calendar client reads an escaped text back: a backslash followed
    by [n] is a newline, a backslash followed by any other character is that
    character.  The service has no such function; it is here to state what
    escaping preserves. *)
Fixpoint unescape (s : string) : string :=
  match s with
  | EmptyString => EmptyString
  | String a rest =>
      if Ascii.eqb a "\" then
        match rest with
        | String b rest' =>
            String (if Ascii.eqb b "n" then LF else b) (unescape rest')
        | EmptyString => String a EmptyString
        end
      else String a (unescape rest)
  end.

Definition DQUOTE : ascii := "034"%char.

(** An ASCII character, and a text made of ASCII characters only. *)
Definition is_ascii7 (a : ascii) : bool := (nat_of_ascii a <? 128)%nat.

Definition ascii_text : string -> bool := all_chars is_ascii7.

Definition digit_or_dash (a : ascii) : bool := is_digit a || Ascii.eqb a "-".

End Text.

Import Text.

(** ** The query as Express parses it *)

Module Query.

(** A parameter of [req.query]: a string or, for a repeated or bracketed
    parameter, an array or an object of parameters. *)
#[local] Unset Elimination Schemes.
Inductive qvalue :=
| QString (s : string)
| QArray (items : list qvalue)
| QObject (props : list (string * qvalue)).
#[local] Set Elimination Schemes.

(** [String(v)], which [parseInt] applies to its argument.  An array is its
    items joined by commas.  An object is the text [[object Object]], unless
    the query gave it an entry named [toString]: then the conversion finds a
    string where it looks for a method, and throws. *)
Fixpoint to_string (v : qvalue) : outcome string :=
  match v with
  | QString s => Ok s
  | QArray items =>
      match
        (fix all (l : list qvalue) : outcome (list string) :=
           match l with
           | [] => Ok []
           | x :: rest =>
               match to_string x with
               | Throw e => Throw e
               | Ok s =>
                   match all rest with
                   | Throw e => Throw e
                   | Ok ss => Ok (s :: ss)
                   end
               end
           end) items
      with
      | Throw e => Throw e
      | Ok ss => Ok (join "," ss)
      end
  | QObject props =>
      if existsb (fun p => String.eqb (fst p) "toString") props then
        Throw "TypeError: Cannot convert object to primitive value"
      else Ok "[object Object]"
  end.

Record query := Query {
  p_country : option qvalue;
  p_year : option qvalue;
  p_region : option qvalue
}.

(** [!v]: [undefined] and the empty string are falsy, arrays and objects
    are truthy, the empty array too. *)
Definition absent (v : option qvalue) : bool :=
  match v with
  | None | Some (QString EmptyString) => true
  | Some _ => false
  end.

(** [v.toUpperCase()]: only a string has the method. *)
Definition upper_of (v : qvalue) : outcome string :=
  match v with
  | QString s => Ok (toUpperCase s)
  | _ => Throw "TypeError: toUpperCase is not a function"
  end.

(** The guards of [validateHolidayRequest] on the parsed query, in the order
    of the source.  [country.toUpperCase()] throws on an array or an object,
    [parseInt(year)] throws when the year has no text form, and
    [region?.toUpperCase()], evaluated last, when [req.validatedQuery] is
    built, throws on an array or an object. *)
Definition check_query (rq : query) : outcome verdict :=
  if absent (p_country rq) then Ok (Reject 400 "MISSING_COUNTRY")
  else
    match p_country rq with
    | None => Ok (Reject 400 "MISSING_COUNTRY")
    | Some country =>
        match upper_of country with
        | Throw e => Throw e
        | Ok upper =>
            if negb (includes_country upper) then
              Ok (Reject 400 "INVALID_COUNTRY")
            else if absent (p_year rq) then Ok (Reject 400 "MISSING_YEAR")
            else
              match p_year rq with
              | None => Ok (Reject 400 "MISSING_YEAR")
              | Some year =>
                  match to_string year with
                  | Throw e => Throw e
                  | Ok text =>
                      match parseInt text with
                      | None => Ok (Reject 400 "INVALID_YEAR")
                      | Some yearInt =>
                          if (yearInt <? 2000) || (yearInt >? 2030) then
                            Ok (Reject 400 "INVALID_YEAR")
                          else
                            match p_region rq with
                            | None =>
                                Ok (Pass {| country := upper;
                                            year := yearInt;
                                            region := None |})
                            | Some r =>
                                match upper_of r with
                                | Throw e => Throw e
                                | Ok region =>
                                    Ok (Pass {| country := upper;
                                                year := yearInt;
                                                region := Some region |})
                                end
                            end
                      end
                  end
              end
        end
    end.

(** The middleware on the parsed query: it answers a rejected request
    itself, calls [next] with the validated query, or throws. *)
Definition validate_query (rq : query) (next : options -> M response)
  : M response :=
  match check_query rq with
  | Throw e => lift (Throw e)
  | Ok (Reject status code) => ret (JsonError status code)
  | Ok (Pass validatedQuery) => next validatedQuery
  end.

(** A parameter that, when it is a string, is an ASCII text. *)
Definition ascii_if_text (v : option qvalue) : bool :=
  match v with
  | Some (QString s) => ascii_text s
  | _ => true
  end.

(** A query whose parameters are strings. *)
Definition query_of_request (req : request) : query :=
  {| p_country := option_map QString (q_country req);
     p_year := option_map QString (q_year req);
     p_region := option_map QString (q_region req) |}.

End Query.

Import Query.

(** ** The encoder on the resolver's objects *)

Module EncoderJs.

(** The record that the loop of [generateICS] reads out of an object, or the
    [TypeError] it runs into: [date.replace], [name.replace] and
    [type.toUpperCase] need strings; a truthy [description] is passed to
    [escapeText] and a truthy [observed] (never identical to a string [date]
    unless it is a string itself) to [formatDate], which need strings too;
    falsy values of the two are skipped. *)
Definition optional_text (v : jsval) : outcome (option string) :=
  match v with
  | JStr s => Ok (Some s)
  | JUndefined | JNull | JBool false | JNum 0 => Ok None
  | _ => Throw "TypeError: text.replace is not a function"
  end.

Definition as_holiday (o : holidayObj) : outcome holiday :=
  match o_date o, o_name o, optional_text (o_description o), o_type o,
        optional_text (o_observed o) with
  | JStr d, JStr n, Ok desc, JStr t, Ok obs =>
      Ok {| date := d; name := n; description := desc; type := t;
            observed := obs |}
  | _, _, _, _, _ => Throw "TypeError: not a function"
  end.

(** [generateICS(holidays, options)] on the objects that [fetchHolidays]
    returns: the clock is read before the loop, and the loop throws at the
    first object it cannot read. *)
Definition generateICS_js (holidays : list holidayObj) (opts : options)
  : M string :=
  now <- new_Date ;;
  let timestamp := formatDateTimeUTC now in
  hs <- lift (map_throwing as_holiday holidays) ;;
  ret (join CRLF (ics_lines timestamp hs opts)).

End EncoderJs.

Import EncoderJs.

(** ** The route [GET /holidays] *)

Module Route.

Definition filename (q : options) : string :=
  match region q with
  | Some (String _ _ as r) =>
      "holidays-" +:+ country q +:+ "-" +:+ r +:+ "-" +:+ string_of_Z (year q)
        +:+ ".ics"
  | _ => "holidays-" +:+ country q +:+ "-" +:+ string_of_Z (year q) +:+ ".ics"
  end.

(** The headers set on a calendar response: the object given to [res.set],
    then [X-Region] when the region is truthy. *)
Definition calendar_headers (count : nat) (q : options)
  : list (string * string) :=
  [ ("Content-Type", "text/calendar; charset=utf-8");
    ("Content-Disposition",
       "attachment; filename=" +:+ String DQUOTE (filename q)
         +:+ String DQUOTE EmptyString);
    ("Cache-Control", "public, max-age=86400");
    ("X-Holidays-Count", string_of_Z (Z.of_nat count));
    ("X-Country", country q);
    ("X-Year", string_of_Z (year q));
    ("X-API-Version", "1.0.0");
    ("X-RapidAPI-Service", "Holiday Calendar API") ]
  ++ match region q with
     | Some (String _ _ as r) => [("X-Region", r)]
     | _ => []
     end.

(** [res.set]: the HTTP layer throws on a header value it refuses.  Which
    values it refuses is its own rule, [accepts]. *)
Definition set_headers (accepts : string -> bool)
    (headers : list (string * string)) : outcome unit :=
  if forallb (fun h => accepts (snd h)) headers then Ok tt
  else Throw "TypeError [ERR_INVALID_CHAR]: Invalid character in header content".

(** The handler that runs after the validation middleware. *)
Definition holidays_handler (accepts : string -> bool) (q : options)
  : M response :=
  try_catch
    (holidays <- fetchHolidays (country q) (year q) (region q) ;;
     match holidays with
     | [] => ret (JsonError 404 "NO_HOLIDAYS_FOUND")
     | _ :: _ =>
         icsContent <- generateICS_js holidays q ;;
         _ <- lift (set_headers accepts
                      (calendar_headers (length holidays) q)) ;;
         ret (Calendar icsContent)
     end)
    (fun _ => ret (JsonError 500 "INTERNAL_ERROR")).

(** The route on a query whose parameters are strings, after the rate
    limiter has let the request through. *)
Definition holidays_route (accepts : string -> bool) (req : request)
  : M response :=
  validateHolidayRequest req (holidays_handler accepts).

(** The error-handling middleware, registered after the routes: Express
    hands it what a middleware threw. *)
Definition error_middleware (e : string) : M response :=
  ret (JsonError 500 "INTERNAL_ERROR").

(** The route on the parsed query, with the error-handling middleware
    behind it.  The handler has a [try] of its own around all it does, so
    what reaches the error-handling middleware is what the validation
    middleware threw. *)
Definition holidays_app (accepts : string -> bool) (rq : query) : M response :=
  try_catch (validate_query rq (holidays_handler accepts)) error_middleware.

End Route.

Import Route.

(** ** Rate limiting by subscription *)

Module RateLimit.

(** The three limiters made by [createRateLimiter]. *)
Inductive limiter := basicLimiter | proLimiter | enterpriseLimiter.

Definition windowMs (l : limiter) : Z := 60 * 1000.

Definition max (l : limiter) : Z :=
  match l with
  | basicLimiter => 10
  | proLimiter => 100
  | enterpriseLimiter => 1000
  end.

(** [Math.ceil(windowMs / 1000)]. *)
Definition retryAfter (l : limiter) : Z := (windowMs l + 999) / 1000.

(** Which limiter a request goes through, from its
    [x-rapidapi-subscription] header (a string, or [undefined]). *)
Definition rateLimitBySubscription (header : option string) : limiter :=
  let subscription :=
    match header with
    | Some (String _ _ as s) => s
    | _ => "basic"
    end in
  let tier := toLowerCase subscription in
  if String.eqb tier "enterprise" then enterpriseLimiter
  else if String.eqb tier "pro" then proLimiter
  else basicLimiter.

End RateLimit.

(** ** Strings: basic facts *)

Lemma string_app_cons (x : ascii) (a b : string) :
  String x a +:+ b = String x (a +:+ b).
Proof. reflexivity. Qed.

Lemma string_app_assoc (a b c : string) : (a +:+ b) +:+ c = a +:+ (b +:+ c).
Proof.
  induction a as [|x a IH]; [reflexivity|].
  rewrite !string_app_cons. now rewrite IH.
Qed.

Lemma string_app_nil_r (a : string) : a +:+ "" = a.
Proof.
  induction a as [|x a IH]; [reflexivity|].
  rewrite string_app_cons. now rewrite IH.
Qed.

Lemma string_app_length (a b : string) :
  String.length (a +:+ b) = (String.length a + String.length b)%nat.
Proof.
  induction a as [|x a IH]; [reflexivity|].
  rewrite string_app_cons. simpl. now rewrite IH.
Qed.

(** Appending on the right is injective. *)
Lemma string_app_inv_tail (t a b : string) : a +:+ t = b +:+ t -> a = b.
Proof.
  revert b. induction a as [|x a IH]; intros [|y b] H.
  - reflexivity.
  - apply (f_equal String.length) in H.
    rewrite !string_app_length in H. simpl in H. lia.
  - apply (f_equal String.length) in H.
    rewrite !string_app_length in H. simpl in H. lia.
  - rewrite !string_app_cons in H. injection H as -> H.
    f_equal. now apply IH.
Qed.

Lemma has_char_app c (a b : string) :
  has_char c (a +:+ b) = has_char c a || has_char c b.
Proof.
  induction a as [|x a IH]; [reflexivity|].
  rewrite string_app_cons. simpl. rewrite IH. now rewrite orb_assoc.
Qed.

(** A string is cut in one way only at the first occurrence of a character. *)
Lemma split_at_first c (a a' b b' : string) :
  has_char c a = false -> has_char c a' = false ->
  a +:+ String c b = a' +:+ String c b' -> a = a' /\ b = b'.
Proof.
  revert a'. induction a as [|x a IH]; intros [|y a'] Ha Ha' H.
  - injection H as ->. auto.
  - rewrite string_app_cons in H. injection H as <- _.
    simpl in Ha'. rewrite Ascii.eqb_refl in Ha'. discriminate.
  - rewrite string_app_cons in H. injection H as -> _.
    simpl in Ha. rewrite Ascii.eqb_refl in Ha. discriminate.
  - rewrite !string_app_cons in H. injection H as -> H.
    simpl in Ha, Ha'. apply orb_false_elim in Ha as [_ Ha].
    apply orb_false_elim in Ha' as [_ Ha'].
    destruct (IH a' Ha Ha' H) as [-> ->]. auto.
Qed.

Lemma replace_char_app c r (a b : string) :
  replace_char c r (a +:+ b) = replace_char c r a +:+ replace_char c r b.
Proof.
  induction a as [|x a IH]; [reflexivity|].
  rewrite string_app_cons. simpl.
  destruct (Ascii.eqb x c); rewrite IH;
    [symmetry; apply string_app_assoc | reflexivity].
Qed.

(** Once every [c] is replaced by a text without [c], no [c] is left. *)
Lemma has_char_replace_char c r (s : string) :
  has_char c r = false -> has_char c (replace_char c r s) = false.
Proof.
  intros Hr. induction s as [|x s IH]; [reflexivity|].
  simpl. destruct (Ascii.eqb x c) eqn:E.
  - now rewrite has_char_app, Hr, IH.
  - simpl. now rewrite E, IH.
Qed.

Lemma lower_alnum_not_dash (a : ascii) :
  is_alnum a = true -> Ascii.eqb (lower_char a) "-" = false.
Proof.
  destruct a as [[] [] [] [] [] [] [] []]; vm_compute; congruence.
Qed.

Lemma slug_no_dash (s : string) :
  has_char "-" (toLowerCase (remove_non_alnum s)) = false.
Proof.
  unfold toLowerCase, remove_non_alnum.
  induction s as [|x s IH]; [reflexivity|].
  simpl. destruct (is_alnum x) eqn:E; simpl; [|exact IH].
  now rewrite lower_alnum_not_dash, IH.
Qed.

Lemma string_of_Z_inj (m n : Z) : string_of_Z m = string_of_Z n -> m = n.
Proof.
  unfold string_of_Z. intros H.
  apply DecimalZ.to_int_inj.
  apply (f_equal NilEmpty.int_of_string) in H.
  rewrite !NilEmpty.isi in H. congruence.
Qed.

(** ** C1: text escaping *)

Lemma escapeText_app (a b : string) :
  escapeText (a +:+ b) = escapeText a +:+ escapeText b.
Proof. unfold escapeText. now rewrite !replace_char_app. Qed.

Lemma escapeText_one (a : ascii) : escapeText (String a "") = escape_char a.
Proof.
  destruct a as [[] [] [] [] [] [] [] []]; vm_compute; reflexivity.
Qed.

(** C1. For every input string, the chain of five global replacements of
    [escapeText] (backslash first, then semicolon, comma, newline, and the
    removal of carriage returns) has the effect of a single pass that turns
    each input character into its escaped form: what a later substitution
    writes is never escaped again. *)
Theorem escapeText_single_pass (text : string) :
  escapeText text = escape_once text.
Proof.
  induction text as [|a rest IH]; [reflexivity|].
  change (String a rest) with (String a "" +:+ rest).
  rewrite escapeText_app, escapeText_one, IH. reflexivity.
Qed.

(** The order matters: with the backslash replaced last, the backslashes
    written for [;] would be doubled. *)
Example escapeText_backslash_last :
  replace_char "\" "\\" (replace_char ";" "\;" "a;b") = "a\\;b"
  /\ escapeText "a;b" = "a\;b".
Proof. split; reflexivity. Qed.

(** A name with [;], [,], a backslash and a newline. *)
Example escapeText_mixed :
  escapeText ("a;b,c\d" +:+ String LF (String CR "e")) = "a\;b\,c\\d\ne".
Proof. reflexivity. Qed.

(** ** C2: event identifiers *)

(** C2, as stated, fails: two records whose names differ only in
    punctuation get the same identifier. *)
Lemma generateUID_collision :
  name (Holiday "2025-01-01" "New Year's Day" None "public" None)
    <> name (Holiday "2025-01-01" "New Years Day" None "public" None)
  /\ generateUID (Holiday "2025-01-01" "New Year's Day" None "public" None)
       "US" 2025
     = generateUID (Holiday "2025-01-01" "New Years Day" None "public" None)
         "US" 2025.
Proof. split; [discriminate | reflexivity]. Qed.

(** The condition on the country in the amended statement is needed: with
    dashes in the country and a negative year, the last two parts can be cut
    in two ways. *)
Example generateUID_dash_in_country :
  generateUID (Holiday "2025-01-01" "N" None "public" None) "b-" (-2025)
  = generateUID (Holiday "2025-01-01" "N" None "public" None) "b--" 2025.
Proof. reflexivity. Qed.

(** C2, amended. The identifier is a function of its inputs, and for country
    codes without a dash two identifiers are equal exactly when the
    dash-stripped dates, the lower-cased alphanumeric parts of the names, the
    countries and the years are equal. *)
Theorem generateUID_eq_iff (h1 h2 : holiday) (c1 c2 : string) (y1 y2 : Z) :
  has_char "-" c1 = false -> has_char "-" c2 = false ->
  generateUID h1 c1 y1 = generateUID h2 c2 y2
  <-> formatDate (date h1) = formatDate (date h2)
      /\ toLowerCase (remove_non_alnum (name h1))
         = toLowerCase (remove_non_alnum (name h2))
      /\ c1 = c2 /\ y1 = y2.
Proof.
  intros Hc1 Hc2. unfold generateUID, formatDate. split.
  - intros H.
    apply split_at_first in H as [Hd H];
      [| now apply has_char_replace_char ..].
    apply split_at_first in H as [Hn H]; [| apply slug_no_dash ..].
    apply split_at_first in H as [Hc H]; [| assumption ..].
    apply string_app_inv_tail, string_of_Z_inj in H. auto.
  - intros (-> & -> & -> & ->). reflexivity.
Qed.

Lemma generateUID_eq_iff_witness :
  generateUID (Holiday "2025-12-25" "Christmas Day" None "public" None) "US" 2025
  = generateUID (Holiday "2025-12-25" "Christmas Day" None "public" None) "GB" 2025
  <-> formatDate "2025-12-25" = formatDate "2025-12-25"
      /\ toLowerCase (remove_non_alnum "Christmas Day")
         = toLowerCase (remove_non_alnum "Christmas Day")
      /\ "US" = "GB" /\ 2025 = 2025.
Proof.
  apply (generateUID_eq_iff
           (Holiday "2025-12-25" "Christmas Day" None "public" None)
           (Holiday "2025-12-25" "Christmas Day" None "public" None)
           "US" "GB" 2025 2025); reflexivity.
Defined.

(** ** The shape of the encoder's output *)

(** Case analysis on the two optional pushes of one iteration. *)
Ltac event_cases h :=
  unfold event_of, push_event;
  destruct (description h) as [[|? ?]|];
  destruct (observed h) as [[|? ?]|];
  try match goal with
      | |- context [String.eqb ?o (date h)] =>
          destruct (String.eqb o (date h)) eqn:?
      end;
  cbn [app].

Lemma push_event_app ts opts (acc : list string) h :
  push_event ts opts acc h = acc ++ event_of ts opts h.
Proof.
  event_cases h; rewrite <- ?(assoc_L (++)); reflexivity.
Qed.

Lemma fold_push_event ts opts (hs : list holiday) (acc : list string) :
  fold_left (push_event ts opts) hs acc
  = acc ++ concat (map (event_of ts opts) hs).
Proof.
  revert acc. induction hs as [|h hs IH]; intros acc; simpl.
  - now rewrite app_nil_r.
  - rewrite IH, push_event_app. now rewrite <- (assoc_L (++)).
Qed.

Lemma ics_lines_eq ts hs opts :
  ics_lines ts hs opts
  = header opts ++ concat (map (event_of ts opts) hs) ++ ["END:VCALENDAR"].
Proof.
  unfold ics_lines. rewrite fold_push_event. now rewrite <- (assoc_L (++)).
Qed.

(** Reading a block back: the lines pushed for one holiday are read as one
    block, whatever follows. *)
Lemma blocks_from_event ts opts h (rest : list string) :
  blocks_from None (event_of ts opts h ++ rest)
  = event_of ts opts h :: blocks_from None rest.
Proof. event_cases h; reflexivity. Qed.

Lemma blocks_from_events ts opts (hs : list holiday) (rest : list string) :
  blocks_from None (concat (map (event_of ts opts) hs) ++ rest)
  = map (event_of ts opts) hs ++ blocks_from None rest.
Proof.
  induction hs as [|h hs IH]; [reflexivity|].
  cbn [map concat]. rewrite <- (assoc_L (++)), blocks_from_event, IH.
  reflexivity.
Qed.

Lemma blocks_from_header opts (rest : list string) :
  blocks_from None (header opts ++ rest) = blocks_from None rest.
Proof. reflexivity. Qed.

Lemma event_blocks_ics_lines ts hs opts :
  event_blocks (ics_lines ts hs opts) = map (event_of ts opts) hs.
Proof.
  unfold event_blocks.
  rewrite ics_lines_eq, blocks_from_header, blocks_from_events.
  cbn. now rewrite app_nil_r.
Qed.

Lemma generateICS_run hs opts w :
  generateICS hs opts w
  = (Ok (join CRLF (ics_lines (formatDateTimeUTC (clock w (ticks w))) hs opts)),
     {| clock := clock w; ticks := S (ticks w);
        network := network w; requests := requests w |}).
Proof. reflexivity. Qed.

(** ** C4: the timestamp is the only thing that varies *)

Lemma same_but_dtstamp_refl ts1 ts2 (ls : list string) :
  Forall2 (same_but_dtstamp ts1 ts2) ls ls.
Proof. apply Forall_Forall2_diag, Forall_forall. intros l _. now left. Qed.

Lemma event_of_same_but_dtstamp ts1 ts2 opts h :
  Forall2 (same_but_dtstamp ts1 ts2) (event_of ts1 opts h) (event_of ts2 opts h).
Proof.
  event_cases h;
    repeat (apply Forall2_cons; split; [first [now left | now right]|]);
    apply Forall2_nil_2.
Qed.

Lemma events_same_but_dtstamp ts1 ts2 opts (hs : list holiday) :
  Forall2 (same_but_dtstamp ts1 ts2)
    (concat (map (event_of ts1 opts) hs)) (concat (map (event_of ts2 opts) hs)).
Proof.
  induction hs as [|h hs IH]; cbn [map concat]; [constructor|].
  apply Forall2_app; [apply event_of_same_but_dtstamp | exact IH].
Qed.

(** C4. For every sequence of records and options, two renders (made at any
    two states of the world, so at any two clock readings) give documents
    whose lines agree one by one, except that where one has its [DTSTAMP]
    line the other has its own [DTSTAMP] line; with equal clock readings the
    two documents are the same text. *)
Theorem generateICS_same_but_dtstamp
    (holidays : list holiday) (opts : options) (w1 w2 : World) :
  exists ts1 ts2 lines1 lines2,
    fst (generateICS holidays opts w1) = Ok (join CRLF lines1)
    /\ fst (generateICS holidays opts w2) = Ok (join CRLF lines2)
    /\ lines1 = ics_lines ts1 holidays opts
    /\ lines2 = ics_lines ts2 holidays opts
    /\ Forall2 (same_but_dtstamp ts1 ts2) lines1 lines2
    /\ (clock w1 (ticks w1) = clock w2 (ticks w2) ->
        fst (generateICS holidays opts w1) = fst (generateICS holidays opts w2)).
Proof.
  exists (formatDateTimeUTC (clock w1 (ticks w1))),
         (formatDateTimeUTC (clock w2 (ticks w2))).
  do 2 eexists. rewrite !generateICS_run.
  repeat split; try reflexivity.
  - rewrite !ics_lines_eq.
    apply Forall2_app; [apply same_but_dtstamp_refl|].
    apply Forall2_app; [apply events_same_but_dtstamp|].
    apply same_but_dtstamp_refl.
  - cbn [fst]. now intros ->.
Qed.

Lemma generateICS_same_but_dtstamp_witness :
  fst (generateICS [] (Options "US" 2025 None) offline)
  = fst (generateICS [] (Options "US" 2025 None) offline).
Proof.
  destruct (generateICS_same_but_dtstamp [] (Options "US" 2025 None)
              offline offline) as (ts1 & ts2 & l1 & l2 & _ & _ & _ & _ & _ & H).
  apply H. reflexivity.
Defined.

(** ** The timestamp line of an event *)

Lemma event_of_dtstamp ts opts h :
  List.filter (starts_with "DTSTAMP:") (event_of ts opts h)
  = ["DTSTAMP:" +:+ ts].
Proof. event_cases h; reflexivity. Qed.

(** ** C10: what is not escaped *)







(** ** The resolver *)

(** An attempt never throws, and it leaves the network's behaviour as it
    was. *)
Lemma attempt_total url w :
  exists r w', attempt url w = (Ok r, w') /\ network w' = network w.
Proof.
  unfold attempt, try_catch, bind, axios_get, lift, ret.
  destruct (network w (requests w) url) as [[| | | | |items|]|e]; cbn;
    try (now eauto).
  destruct (map_throwing adapt items); cbn; now eauto.
Qed.

(** An unusable answer makes the attempt fall through. *)
Lemma attempt_unusable url w :
  unusable (network w (requests w) url) = true ->
  exists w', attempt url w = (Ok None, w') /\ network w' = network w.
Proof.
  unfold unusable, attempt, try_catch, bind, axios_get, lift, ret.
  destruct (network w (requests w) url) as [[| | | | |items|]|e]; cbn;
    try (now eauto).
  destruct (map_throwing adapt items); cbn; [discriminate | now eauto].
Qed.

Lemma try_each_total urls w :
  exists r w', try_each urls w = (Ok r, w').
Proof.
  revert w. induction urls as [|url urls IH]; intros w; cbn.
  - unfold ret. eauto.
  - unfold bind. destruct (attempt_total url w) as (r & w' & -> & _).
    destruct r; [unfold ret; eauto | apply IH].
Qed.

Lemma try_each_unusable urls w :
  (forall sent url, unusable (network w sent url) = true) ->
  exists w', try_each urls w = (Ok None, w').
Proof.
  revert w. induction urls as [|url urls IH]; intros w Hall; cbn.
  - unfold ret. eauto.
  - unfold bind.
    destruct (attempt_unusable url w (Hall _ _)) as (w' & -> & Hnet).
    apply IH. intros sent u. rewrite Hnet. apply Hall.
Qed.

(** ** The resolver with no source, and with an empty answer *)

(** With every source down, a request for the United States in 2025 gets the
    ten records of the table, one for a country without an entry gets none,
    and all three sources were asked, in order. *)
Example fetchHolidays_offline :
  (exists hs, fst (fetchHolidays "US" 2025 None offline) = Ok hs
              /\ length hs = 10%nat)
  /\ fst (fetchHolidays "JP" 2025 None offline) = Ok []
  /\ requests (snd (fetchHolidays "US" 2025 None offline))
     = apis "US" 2025.
Proof. split; [eexists; split|split]; vm_compute; reflexivity. Qed.

(** ** C6: the region plays no part in the lookup *)

(** C6. For every country, year and any two region values, [fetchHolidays]
    gives the same result in the same world: the requests made and the key
    of the static table are built from country and year alone.  In the
    encoder the region reaches the calendar-name line only: the lines of two
    renders that differ in the region agree everywhere else. *)
Theorem fetchHolidays_ignores_region
    (country : string) (year : Z) (region1 region2 : option string) (w : World) :
  fetchHolidays country year region1 w = fetchHolidays country year region2 w
  /\ (forall ts hs,
        Forall2 (same_but_calname (Options country year region1)
                                  (Options country year region2))
          (ics_lines ts hs (Options country year region1))
          (ics_lines ts hs (Options country year region2))).
Proof.
  split; [reflexivity|].
  intros ts hs. rewrite !ics_lines_eq.
  apply Forall2_app.
  - unfold header.
    repeat (apply Forall2_cons; split; [first [now left | now right]|]).
    apply Forall2_nil_2.
  - apply Forall_Forall2_diag, Forall_forall. intros l _. now left.
Qed.

(** ** Request validation *)

(** A rejected request is answered without [next] being called: the answer
    and the world are the same whatever [next] is. *)
Lemma validateHolidayRequest_reject req status code next w :
  check_request req = Reject status code ->
  validateHolidayRequest req next w = (Ok (JsonError status code), w).
Proof. unfold validateHolidayRequest. now intros ->. Qed.

Lemma validateHolidayRequest_pass req q next w :
  check_request req = Pass q ->
  validateHolidayRequest req next w = next q w.
Proof. unfold validateHolidayRequest. now intros ->. Qed.

(** What the guards do once the country has passed. *)
Lemma check_request_year req c :
  q_country req = Some c -> c <> "" ->
  includes_country (toUpperCase c) = true ->
  check_request req =
    match q_year req with
    | Some (String _ _ as y) =>
        match parseInt y with
        | Some n =>
            if (n <? 2000) || (n >? 2030) then Reject 400 "INVALID_YEAR"
            else Pass {| country := toUpperCase c; year := n;
                         region := option_map toUpperCase (q_region req) |}
        | None => Reject 400 "INVALID_YEAR"
        end
    | _ => Reject 400 "MISSING_YEAR"
    end.
Proof.
  intros Hc Hne Hin. unfold check_request. rewrite Hc.
  destruct c as [|a c]; [congruence|]. now rewrite Hin.
Qed.

Lemma in_range_test n :
  (n <? 2000) || (n >? 2030) = false <-> 2000 <= n <= 2030.
Proof.
  rewrite orb_false_iff, Z.ltb_ge, Z.gtb_ltb, Z.ltb_ge. lia.
Qed.

(** ** The order of the guards, and what [parseInt] lets through *)

(** The guards in the order of the source: the country is looked at first,
    so a request with a bad country is rejected for its country whatever its
    year is. *)
Example country_before_year :
  check_request (Request (Some "ZZ") (Some "1999") None)
    = Reject 400 "INVALID_COUNTRY"
  /\ check_request (Request None None None) = Reject 400 "MISSING_COUNTRY"
  /\ check_request (Request (Some "gb") None (Some "sct"))
     = Reject 400 "MISSING_YEAR"
  /\ check_request (Request (Some "gb") (Some "2025") (Some "sct"))
     = Pass (Options "GB" 2025 (Some "SCT")).
Proof. repeat split; reflexivity. Qed.

(** [parseInt] reads a leading integer: text after the digits, a sign, white
    space and a hexadecimal prefix are all accepted, as in JavaScript. *)
Example parseInt_lenient :
  parseInt "2025abc" = Some 2025 /\ parseInt " +2025" = Some 2025
  /\ parseInt "0x7E9" = Some 2025 /\ parseInt "2025.9" = Some 2025
  /\ parseInt "abc" = None /\ parseInt "" = None.
Proof. repeat split; reflexivity. Qed.

(** The white space that [parseInt] skips is all of Unicode's: here the
    no-break space U+00A0, the ideographic space U+3000 and the byte order
    mark U+FEFF, in their encoded form, before the digits. *)
Example parseInt_unicode_space :
  parseInt (String "194" (String "160" "2025")) = Some 2025
  /\ parseInt (String "227" (String "128" (String "128" "2025"))) = Some 2025
  /\ parseInt (String "239" (String "187" (String "191" " 2025"))) = Some 2025
  /\ parseInt (String "226" (String "128" (String "139" "2025"))) = None.
Proof. repeat split; reflexivity. Qed.

(** ** The document as text: its lines are the array's lines *)

Lemma lines_from_step (a b : ascii) (rest cur : string) :
  Ascii.eqb a CR = false ->
  lines_from cur (String a (String b rest))
  = lines_from (cur +:+ String a "") (String b rest).
Proof.
  intros Ha.
  change (lines_from cur (String a (String b rest)))
    with (if Ascii.eqb a CR && Ascii.eqb b LF
          then cur :: lines_from "" rest
          else lines_from (cur +:+ String a "") (String b rest)).
  now rewrite Ha.
Qed.

Lemma lines_from_last (l cur : string) :
  has_char CR l = false -> lines_from cur l = [cur +:+ l].
Proof.
  revert cur. induction l as [|a l IH]; intros cur H.
  - cbn. now rewrite string_app_nil_r.
  - cbn in H. apply orb_false_elim in H as [Ha Hl].
    destruct l as [|b l].
    + reflexivity.
    + rewrite (lines_from_step _ _ _ _ Ha), (IH _ Hl), string_app_assoc.
      reflexivity.
Qed.

Lemma lines_from_line (l cur t : string) :
  has_char CR l = false ->
  lines_from cur (l +:+ CRLF +:+ t) = (cur +:+ l) :: lines_from "" t.
Proof.
  revert cur. induction l as [|a l IH]; intros cur H.
  - cbn. now rewrite string_app_nil_r.
  - cbn in H. apply orb_false_elim in H as [Ha Hl].
    rewrite string_app_cons.
    specialize (IH (cur +:+ String a "") Hl).
    destruct (l +:+ CRLF +:+ t) as [|b u] eqn:E.
    + destruct l; discriminate E.
    + rewrite (lines_from_step _ _ _ _ Ha), IH, string_app_assoc.
      reflexivity.
Qed.

(** Splitting the joined text gives the array back, when no line holds a
    carriage return. *)
Lemma doc_lines_join (ls : list string) :
  ls <> [] -> Forall (fun l => has_char CR l = false) ls ->
  doc_lines (join CRLF ls) = ls.
Proof.
  unfold doc_lines. induction ls as [|l ls IH]; [congruence|].
  intros _ H. apply Forall_cons in H as [Hl Hls].
  destruct ls as [|l' ls].
  - cbn [join]. now rewrite lines_from_last.
  - change (join CRLF (l :: l' :: ls)) with (l +:+ CRLF +:+ join CRLF (l' :: ls)).
    rewrite lines_from_line by assumption.
    rewrite IH by (congruence || assumption). reflexivity.
Qed.

(** *** Which texts have no carriage return *)

Lemma no_cr_uint (d : Decimal.uint) :
  has_char CR (NilEmpty.string_of_uint d) = false.
Proof. induction d; cbn; auto. Qed.

Lemma no_cr_string_of_Z (n : Z) : has_char CR (string_of_Z n) = false.
Proof.
  unfold string_of_Z. destruct (Z.to_int n); cbn; apply no_cr_uint.
Qed.

Lemma no_cr_escapeText (s : string) : has_char CR (escapeText s) = false.
Proof. unfold escapeText. now apply has_char_replace_char. Qed.

Lemma no_cr_replace_char c r (s : string) :
  has_char CR r = false -> has_char CR s = false ->
  has_char CR (replace_char c r s) = false.
Proof.
  intros Hr. induction s as [|a s IH]; [reflexivity|].
  cbn. intros [Ha Hs]%orb_false_elim.
  destruct (Ascii.eqb a c).
  - now rewrite has_char_app, Hr, IH.
  - cbn. now rewrite Ha, IH.
Qed.

Lemma no_cr_remove_if cls (s : string) :
  has_char CR s = false -> has_char CR (remove_if cls s) = false.
Proof.
  induction s as [|a s IH]; [reflexivity|].
  cbn. intros [Ha Hs]%orb_false_elim.
  destruct (cls a); cbn; [now apply IH | now rewrite Ha, IH].
Qed.

Lemma upper_char_cr (a : ascii) : Ascii.eqb (upper_char a) CR = Ascii.eqb a CR.
Proof. destruct a as [[] [] [] [] [] [] [] []]; reflexivity. Qed.

Lemma lower_char_cr (a : ascii) : Ascii.eqb (lower_char a) CR = Ascii.eqb a CR.
Proof. destruct a as [[] [] [] [] [] [] [] []]; reflexivity. Qed.

Lemma has_cr_map_chars f (s : string) :
  (forall a, Ascii.eqb (f a) CR = Ascii.eqb a CR) ->
  has_char CR (map_chars f s) = has_char CR s.
Proof.
  intros Hf. induction s as [|a s IH]; [reflexivity|].
  cbn. now rewrite Hf, IH.
Qed.

Lemma no_cr_remove_first_millis (s : string) :
  has_char CR s = false -> has_char CR (remove_first_millis s) = false.
Proof.
  assert (Hgen : forall n s, (String.length s <= n)%nat ->
            has_char CR s = false ->
            has_char CR (remove_first_millis s) = false).
  { clear s. induction n as [|n IH]; intros [|a s] Hlen H; try reflexivity.
    - cbn in Hlen. lia.
    - cbn in H, Hlen. apply orb_false_elim in H as [Ha Hs].
      assert (Hrec : has_char CR (String a (remove_first_millis s)) = false).
      { cbn. rewrite Ha. apply IH; [lia | assumption]. }
      cbn [remove_first_millis].
      destruct (Ascii.eqb a "."); [|exact Hrec].
      destruct s as [|d1 [|d2 [|d3 rest]]]; try exact Hrec.
      destruct (is_digit d1 && is_digit d2 && is_digit d3); [|exact Hrec].
      cbn in Hs. repeat (apply orb_false_elim in Hs as [_ Hs]). exact Hs. }
  apply (Hgen (String.length s)). lia.
Qed.

Lemma no_cr_formatDateTimeUTC (d : Date) :
  has_char CR (toISOString d) = false ->
  has_char CR (formatDateTimeUTC d) = false.
Proof.
  intros H. unfold formatDateTimeUTC.
  now apply no_cr_remove_first_millis, no_cr_remove_if.
Qed.

Lemma no_cr_generateUID h c y :
  has_char CR (date h) = false -> has_char CR c = false ->
  has_char CR (generateUID h c y) = false.
Proof.
  intros Hd Hc. unfold generateUID.
  rewrite !has_char_app, Hc, no_cr_string_of_Z.
  rewrite (no_cr_replace_char "-" "" (date h) eq_refl Hd).
  unfold toLowerCase, remove_non_alnum.
  rewrite (has_cr_map_chars _ _ lower_char_cr).
  assert (Hs : forall s, has_char CR (remove_if (fun a => negb (is_alnum a)) s)
                         = false).
  { induction s as [|a s IH]; [reflexivity|]. cbn.
    destruct (is_alnum a) eqn:E; cbn; [|exact IH].
    rewrite IH. destruct a as [[] [] [] [] [] [] [] []]; try reflexivity;
      discriminate E. }
  now rewrite Hs.
Qed.

(** Every line of the array is free of carriage returns, when the fields
    written unescaped are. *)
Lemma no_cr_event_of ts opts h :
  has_char CR ts = false ->
  options_line_safe opts = true -> holiday_line_safe h = true ->
  Forall (fun l => has_char CR l = false) (event_of ts opts h).
Proof.
  unfold options_line_safe, holiday_line_safe, line_safe.
  intros Hts [Hc _]%andb_prop [[Hd Ht]%andb_prop Ho]%andb_prop.
  apply negb_true_iff in Hc, Hd, Ht.
  pose proof (no_cr_generateUID h _ (year opts) Hd Hc) as Hu.
  pose proof (no_cr_replace_char "-" "" (date h) eq_refl Hd) as Hfd.
  assert (Hty : has_char CR (toUpperCase (type h)) = false).
  { unfold toUpperCase. now rewrite (has_cr_map_chars _ _ upper_char_cr). }
  assert (Hob : forall o, observed h = Some o ->
                  has_char CR (formatDate o) = false).
  { intros o Eo. rewrite Eo in Ho. cbn in Ho. apply negb_true_iff in Ho.
    now apply no_cr_replace_char. }
  unfold formatDate in *. revert Hob.
  event_cases h; intros Hob; unfold formatDate;
    repeat (apply Forall_cons; split;
            [ rewrite ?has_char_app, ?Hu, ?Hts, ?Hty, ?Hfd, ?no_cr_escapeText,
                ?(Hob _ eq_refl);
              reflexivity |]);
    apply Forall_nil_2.
Qed.

Lemma no_cr_header opts :
  options_line_safe opts = true ->
  Forall (fun l => has_char CR l = false) (header opts).
Proof.
  unfold options_line_safe, line_safe, option_line_safe.
  intros [Hc Hr]%andb_prop. apply negb_true_iff in Hc.
  assert (Hn : has_char CR (calendarName opts) = false).
  { unfold calendarName. destruct (region opts) as [[|a r]|];
      rewrite ?has_char_app, ?Hc, ?no_cr_string_of_Z; try reflexivity.
    apply negb_true_iff in Hr. now rewrite Hr. }
  unfold header, prodId.
  repeat (apply Forall_cons; split;
          [ rewrite ?has_char_app, ?Hn, ?no_cr_string_of_Z; reflexivity |]).
  apply Forall_nil_2.
Qed.

Lemma no_cr_ics_lines ts hs opts :
  has_char CR ts = false -> options_line_safe opts = true ->
  Forall (fun h => holiday_line_safe h = true) hs ->
  Forall (fun l => has_char CR l = false) (ics_lines ts hs opts).
Proof.
  intros Hts Ho Hhs. rewrite ics_lines_eq.
  apply Forall_app; split; [now apply no_cr_header|].
  apply Forall_app; split; [|repeat constructor].
  induction Hhs as [|h hs Hh _ IH]; cbn [map concat]; [constructor|].
  apply Forall_app; split; [now apply no_cr_event_of | exact IH].
Qed.

(** The text-level reading of the document.  When the clock's ISO text and
    the fields that are written unescaped hold no carriage return, cutting
    the rendered text at its CRLF terminators gives back the array of lines,
    and so the event blocks of the text are the blocks of the records, one
    per record and in input order. *)
Theorem generateICS_text_lines
    (holidays : list holiday) (opts : options) (w : World) :
  has_char CR (toISOString (clock w (ticks w))) = false ->
  options_line_safe opts = true ->
  Forall (fun h => holiday_line_safe h = true) holidays ->
  exists text timestamp,
    fst (generateICS holidays opts w) = Ok text
    /\ doc_lines text = ics_lines timestamp holidays opts
    /\ event_blocks (doc_lines text) = map (event_of timestamp opts) holidays.
Proof.
  intros Hclk Ho Hhs. rewrite generateICS_run. do 2 eexists.
  split; [reflexivity|].
  assert (Hl : doc_lines
                 (join CRLF
                    (ics_lines (formatDateTimeUTC (clock w (ticks w)))
                       holidays opts))
               = ics_lines (formatDateTimeUTC (clock w (ticks w))) holidays opts).
  { apply doc_lines_join.
    - rewrite ics_lines_eq. discriminate.
    - apply no_cr_ics_lines; auto using no_cr_formatDateTimeUTC. }
  split; [exact Hl|]. rewrite Hl. apply event_blocks_ics_lines.
Qed.

(** The condition is needed for the text-level reading: a [type] with line
    breaks in it is written as it is (see C10), so the text then has more
    lines than the array has entries. *)
Example type_with_line_breaks :
  let h := Holiday "2025-01-01" "N" None
             ("x" +:+ CRLF +:+ "END:VEVENT" +:+ CRLF +:+ "BEGIN:VEVENT"
                +:+ CRLF +:+ "X-A:") None in
  length (event_blocks (ics_lines "T" [h] (Options "US" 2025 None))) = 1%nat
  /\ length (event_blocks
               (doc_lines (join CRLF (ics_lines "T" [h] (Options "US" 2025 None)))))
     = 2%nat.
Proof. split; reflexivity. Qed.

(** The end-to-end scenario of the specification: United States, 2025, no
    region, every source failing. *)
Example us_2025_offline :
  exists entry text,
    enhancedHolidays !! "US-2025" = Some entry
    /\ fst (fetchHolidays "US" 2025 None offline) = Ok (map obj_of_holiday entry)
    /\ fst (generateICS entry (Options "US" 2025 None) offline) = Ok text
    /\ length (event_blocks (doc_lines text)) = 10%nat
    /\ doc_lines text !! 5%nat = Some "X-WR-CALNAME:US Public Holidays 2025"
    /\ doc_lines text !! 14%nat = Some "SUMMARY:New Year's Day".
Proof.
  do 2 eexists. split; [vm_compute; reflexivity|].
  repeat split; vm_compute; reflexivity.
Qed.
(** * Further properties of the code *)

(** ** Dates and timestamps *)

Lemma replace_char_absent c r (s : string) :
  has_char c s = false -> replace_char c r s = s.
Proof.
  induction s as [|a s IH]; [reflexivity|].
  cbn. intros [Ha Hs]%orb_false_elim. rewrite Ha. now rewrite IH.
Qed.

(** [formatDate] removes the dashes and nothing else: its result has no
    dash, formatting twice changes nothing more, and a date written
    year-month-day with dash-free parts becomes the three parts in a row. *)
Theorem formatDate_strips_dashes (y m d : string) :
  has_char "-" y = false -> has_char "-" m = false -> has_char "-" d = false ->
  formatDate (y +:+ "-" +:+ m +:+ "-" +:+ d) = y +:+ m +:+ d
  /\ (forall s, has_char "-" (formatDate s) = false)
  /\ (forall s, formatDate (formatDate s) = formatDate s).
Proof.
  intros Hy Hm Hd. unfold formatDate. split; [|split].
  - rewrite !replace_char_app.
    rewrite (replace_char_absent _ _ y Hy), (replace_char_absent _ _ m Hm),
      (replace_char_absent _ _ d Hd).
    reflexivity.
  - intros s. now apply has_char_replace_char.
  - intros s. apply replace_char_absent. now apply has_char_replace_char.
Qed.

Lemma formatDate_strips_dashes_witness :
  formatDate ("2025" +:+ "-" +:+ "07" +:+ "-" +:+ "04") = "2025" +:+ "07" +:+ "04".
Proof.
  apply (formatDate_strips_dashes "2025" "07" "04"); reflexivity.
Defined.

Lemma remove_if_app cls (a b : string) :
  remove_if cls (a +:+ b) = remove_if cls a +:+ remove_if cls b.
Proof.
  induction a as [|x a IH]; [reflexivity|].
  rewrite string_app_cons. cbn. destruct (cls x); rewrite IH; reflexivity.
Qed.

Lemma remove_if_digits cls (s : string) :
  (forall a, is_digit a = true -> cls a = false) ->
  all_digits s = true -> remove_if cls s = s.
Proof.
  intros Hcls. induction s as [|a s IH]; [reflexivity|].
  cbn. intros [Ha Hs]%andb_prop. rewrite (Hcls a Ha). now rewrite IH.
Qed.

Lemma all_chars_app p (a b : string) :
  all_chars p (a +:+ b) = all_chars p a && all_chars p b.
Proof.
  induction a as [|x a IH]; [reflexivity|].
  rewrite string_app_cons. cbn. rewrite IH. now rewrite andb_assoc.
Qed.

(** Up to the first dot that three digits follow, nothing is removed. *)
Lemma remove_first_millis_at (p rest : string) (d1 d2 d3 : ascii) :
  has_char "." p = false ->
  is_digit d1 = true -> is_digit d2 = true -> is_digit d3 = true ->
  remove_first_millis (p +:+ String "." (String d1 (String d2 (String d3 rest))))
  = p +:+ rest.
Proof.
  intros Hp H1 H2 H3. induction p as [|a p IH].
  - change (remove_first_millis
              (String "." (String d1 (String d2 (String d3 rest)))) = rest).
    cbn -[is_digit]. now rewrite H1, H2, H3.
  - cbn in Hp. apply orb_false_elim in Hp as [Ha Hp].
    rewrite !string_app_cons. cbn [remove_first_millis]. rewrite Ha.
    now rewrite IH.
Qed.

Lemma digits_no_dot (s : string) : all_digits s = true -> has_char "." s = false.
Proof.
  induction s as [|a s IH]; [reflexivity|].
  cbn. intros [Ha Hs]%andb_prop. rewrite (IH Hs), orb_false_r.
  destruct a as [[] [] [] [] [] [] [] []]; try reflexivity; discriminate Ha.
Qed.

(** For a clock reading in the ISO form [Y-M-DTh:m:s.mmmZ] (all parts made of
    digits, three of them for the milliseconds), [formatDateTimeUTC] gives
    the compact form [YMDThmsZ]: no dash, no colon, no milliseconds. *)
Theorem formatDateTimeUTC_compact (Y Mo D h mi s : string) (m1 m2 m3 : ascii) :
  all_digits Y = true -> all_digits Mo = true -> all_digits D = true ->
  all_digits h = true -> all_digits mi = true -> all_digits s = true ->
  is_digit m1 = true -> is_digit m2 = true -> is_digit m3 = true ->
  formatDateTimeUTC
    {| toISOString :=
         Y +:+ "-" +:+ Mo +:+ "-" +:+ D +:+ "T" +:+ h +:+ ":" +:+ mi +:+ ":"
           +:+ s +:+ String "." (String m1 (String m2 (String m3 "Z"))) |}
  = Y +:+ Mo +:+ D +:+ "T" +:+ h +:+ mi +:+ s +:+ "Z".
Proof.
  intros HY HMo HD Hh Hmi Hs H1 H2 H3. unfold formatDateTimeUTC. cbn [toISOString].
  assert (Hcls : forall a, is_digit a = true ->
                   Ascii.eqb a "-" || Ascii.eqb a ":" = false).
  { intros a. destruct a as [[] [] [] [] [] [] [] []]; vm_compute; congruence. }
  rewrite !remove_if_app.
  rewrite (remove_if_digits _ Y Hcls HY), (remove_if_digits _ Mo Hcls HMo),
    (remove_if_digits _ D Hcls HD), (remove_if_digits _ h Hcls Hh),
    (remove_if_digits _ mi Hcls Hmi), (remove_if_digits _ s Hcls Hs).
  assert (Hms : remove_if (fun a => Ascii.eqb a "-" || Ascii.eqb a ":")
                  (String "." (String m1 (String m2 (String m3 "Z"))))
                = String "." (String m1 (String m2 (String m3 "Z")))).
  { cbn. now rewrite !Hcls. }
  rewrite Hms.
  change (remove_if (fun a => Ascii.eqb a "-" || Ascii.eqb a ":") "-") with "".
  change (remove_if (fun a => Ascii.eqb a "-" || Ascii.eqb a ":") ":") with "".
  change (remove_if (fun a => Ascii.eqb a "-" || Ascii.eqb a ":") "T") with "T".
  change ("" +:+ ?x) with x.
  transitivity (remove_first_millis
                  ((Y +:+ Mo +:+ D +:+ "T" +:+ h +:+ mi +:+ s)
                     +:+ String "." (String m1 (String m2 (String m3 "Z"))))).
  { f_equal. rewrite !string_app_assoc. reflexivity. }
  rewrite remove_first_millis_at; try assumption.
  - rewrite !string_app_assoc. reflexivity.
  - rewrite !has_char_app.
    rewrite (digits_no_dot Y HY), (digits_no_dot Mo HMo), (digits_no_dot D HD),
      (digits_no_dot h Hh), (digits_no_dot mi Hmi), (digits_no_dot s Hs).
    reflexivity.
Qed.

Lemma formatDateTimeUTC_compact_witness :
  formatDateTimeUTC
    {| toISOString :=
         "2025" +:+ "-" +:+ "03" +:+ "-" +:+ "04" +:+ "T" +:+ "05" +:+ ":"
           +:+ "06" +:+ ":" +:+ "07"
           +:+ String "." (String "0" (String "8" (String "9" "Z"))) |}
  = "2025" +:+ "03" +:+ "04" +:+ "T" +:+ "05" +:+ "06" +:+ "07" +:+ "Z".
Proof.
  apply (formatDateTimeUTC_compact "2025" "03" "04" "05" "06" "07" "0" "8" "9");
    reflexivity.
Defined.

(** ** The document as text: blocks, observed dates and timestamps *)

(** The rendered text under the conditions that keep its lines whole: it
    is cut at its CRLF terminators into the array's lines, and its event
    blocks are those of the records. *)
Lemma generateICS_text_blocks (holidays : list holiday) (opts : options)
    (w : World) :
  has_char CR (toISOString (clock w (ticks w))) = false ->
  options_line_safe opts = true ->
  Forall (fun h => holiday_line_safe h = true) holidays ->
  exists text,
    generateICS holidays opts w
    = (Ok text,
       {| clock := clock w; ticks := S (ticks w);
          network := network w; requests := requests w |})
    /\ doc_lines text
       = ics_lines (formatDateTimeUTC (clock w (ticks w))) holidays opts
    /\ event_blocks (doc_lines text)
       = map (event_of (formatDateTimeUTC (clock w (ticks w))) opts) holidays.
Proof.
  intros Hclk Ho Hhs. rewrite generateICS_run. eexists.
  split; [reflexivity|].
  assert (Hl : doc_lines
                 (join CRLF
                    (ics_lines (formatDateTimeUTC (clock w (ticks w)))
                       holidays opts))
               = ics_lines (formatDateTimeUTC (clock w (ticks w))) holidays opts).
  { apply doc_lines_join.
    - rewrite ics_lines_eq. discriminate.
    - apply no_cr_ics_lines; auto using no_cr_formatDateTimeUTC. }
  split; [exact Hl|]. rewrite Hl. apply event_blocks_ics_lines.
Qed.

Lemma event_of_fixed_lines ts opts h :
  event_of ts opts h !! 0%nat = Some "BEGIN:VEVENT"
  /\ event_of ts opts h !! 1%nat
     = Some ("UID:" +:+ generateUID h (country opts) (year opts))
  /\ event_of ts opts h !! 3%nat
     = Some ("DTSTART;VALUE=DATE:" +:+ formatDate (date h))
  /\ event_of ts opts h !! 4%nat = Some ("SUMMARY:" +:+ escapeText (name h))
  /\ last (event_of ts opts h) = Some "END:VEVENT".
Proof. event_cases h; repeat split; reflexivity. Qed.

(** The observed-date lines of the block of one record. *)
Lemma event_of_observed ts opts h :
  List.filter (starts_with "X-OBSERVED-DATE:") (event_of ts opts h)
  = match observed h with
    | Some (String _ _ as o) =>
        if String.eqb o (date h) then []
        else ["X-OBSERVED-DATE:" +:+ formatDate o]
    | _ => []
    end.
Proof. event_cases h; reflexivity. Qed.

(** ** C3: one event block per record, in input order *)

(** A [type] is written into its line as it is.  One record whose [type]
    carries line breaks, a line that closes the block and a line that opens
    another gives a text with two event blocks. *)
Lemma generateICS_type_splits_block :
  fst (generateICS
         [Holiday "2025-01-01" "N" None
            ("x" +:+ CRLF +:+ "END:VEVENT" +:+ CRLF +:+ "BEGIN:VEVENT"
               +:+ CRLF +:+ "X-A:") None]
         (Options "US" 2025 None) offline)
  = Ok (join CRLF
          (ics_lines "20250101T000000Z"
             [Holiday "2025-01-01" "N" None
                ("x" +:+ CRLF +:+ "END:VEVENT" +:+ CRLF +:+ "BEGIN:VEVENT"
                   +:+ CRLF +:+ "X-A:") None]
             (Options "US" 2025 None)))
  /\ length
       (event_blocks
          (doc_lines
             (join CRLF
                (ics_lines "20250101T000000Z"
                   [Holiday "2025-01-01" "N" None
                      ("x" +:+ CRLF +:+ "END:VEVENT" +:+ CRLF
                         +:+ "BEGIN:VEVENT" +:+ CRLF +:+ "X-A:") None]
                   (Options "US" 2025 None)))))
     = 2%nat.
Proof. split; reflexivity. Qed.

(** C3, amended. When the fields that are written unescaped (country, region, and
    each record's date, type and observed date) and the clock's text hold no
    carriage return, the rendered text has exactly one event block per
    record, and the blocks come in the order of the records: the block at
    position [i] opens with [BEGIN:VEVENT], carries the identifier, the
    start date and the summary of the record at position [i], and closes
    with [END:VEVENT]. *)
Theorem generateICS_one_block_per_record
    (holidays : list holiday) (opts : options) (w : World) :
  has_char CR (toISOString (clock w (ticks w))) = false ->
  options_line_safe opts = true ->
  Forall (fun h => holiday_line_safe h = true) holidays ->
  exists text,
    fst (generateICS holidays opts w) = Ok text
    /\ length (event_blocks (doc_lines text)) = length holidays
    /\ forall (i : nat) (h : holiday), holidays !! i = Some h ->
         exists block,
           event_blocks (doc_lines text) !! i = Some block
           /\ block !! 0%nat = Some "BEGIN:VEVENT"
           /\ block !! 1%nat
              = Some ("UID:" +:+ generateUID h (country opts) (year opts))
           /\ block !! 3%nat
              = Some ("DTSTART;VALUE=DATE:" +:+ formatDate (date h))
           /\ block !! 4%nat = Some ("SUMMARY:" +:+ escapeText (name h))
           /\ last block = Some "END:VEVENT".
Proof.
  intros Hclk Ho Hhs.
  destruct (generateICS_text_blocks holidays opts w Hclk Ho Hhs)
    as (text & Hrun & _ & Hb).
  exists text. rewrite Hrun, Hb. split; [reflexivity|].
  split; [apply length_map|].
  intros i h Hi. eexists. split.
  - rewrite list_lookup_fmap, Hi. reflexivity.
  - apply event_of_fixed_lines.
Qed.

Lemma generateICS_one_block_per_record_witness :
  exists text,
    fst (generateICS
           [Holiday "2025-12-25" "Christmas Day" None "public" None;
            Holiday "2025-12-26" "Boxing Day" None "public" None]
           (Options "GB" 2025 (Some "SCT")) offline) = Ok text
    /\ length (event_blocks (doc_lines text)) = 2%nat.
Proof.
  destruct (generateICS_one_block_per_record
              [Holiday "2025-12-25" "Christmas Day" None "public" None;
               Holiday "2025-12-26" "Boxing Day" None "public" None]
              (Options "GB" 2025 (Some "SCT")) offline)
    as (text & Ht & Hn & _); [reflexivity | reflexivity | repeat constructor|].
  exists text. split; [exact Ht | exact Hn].
Defined.

(** ** C7: the observed-date line *)

(** A [type] with a line break in it puts a line of its own choosing into
    the block: here a record without an observed date has an observed-date
    line in the rendered text. *)
Lemma generateICS_type_forges_observed :
  fst (generateICS
         [Holiday "2025-01-01" "N" None
            ("x" +:+ CRLF +:+ "X-OBSERVED-DATE:20250102" +:+ CRLF +:+ "X-A:")
            None]
         (Options "US" 2025 None) offline)
  = Ok (join CRLF
          (ics_lines "20250101T000000Z"
             [Holiday "2025-01-01" "N" None
                ("x" +:+ CRLF +:+ "X-OBSERVED-DATE:20250102" +:+ CRLF
                   +:+ "X-A:") None]
             (Options "US" 2025 None)))
  /\ map (List.filter (starts_with "X-OBSERVED-DATE:"))
       (event_blocks
          (doc_lines
             (join CRLF
                (ics_lines "20250101T000000Z"
                   [Holiday "2025-01-01" "N" None
                      ("x" +:+ CRLF +:+ "X-OBSERVED-DATE:20250102" +:+ CRLF
                         +:+ "X-A:") None]
                   (Options "US" 2025 None)))))
     = [["X-OBSERVED-DATE:20250102"]].
Proof. split; reflexivity. Qed.

Lemma formatDate_digits (o : string) :
  all_chars digit_or_dash o = true -> all_digits (formatDate o) = true.
Proof.
  unfold formatDate, all_digits.
  induction o as [|a o IH]; [reflexivity|].
  cbn [all_chars replace_char]. intros [Ha Ho]%andb_prop.
  unfold digit_or_dash in Ha.
  destruct (Ascii.eqb a "-") eqn:E.
  - now apply IH.
  - rewrite orb_false_r in Ha. cbn [all_chars]. now rewrite Ha, IH.
Qed.

(** C7, amended. When the fields that are written unescaped and the clock's text
    hold no carriage return, the block of the rendered text that belongs to
    a record has a line [X-OBSERVED-DATE:...] if and only if the record's
    [observed] is present (a non-empty string, as the truthiness test of the
    source reads it) and differs from its [date].  The line is then the only
    one of its kind in the block, and it carries the observed date with its
    dashes removed: no dash is left, an observed date of digits and dashes
    gives digits only, and year-dash-month-dash-day gives the three parts in
    a row.  A record whose [observed] equals its [date] is rendered, without
    such a line. *)
Theorem generateICS_observed_line
    (holidays : list holiday) (opts : options) (w : World) :
  has_char CR (toISOString (clock w (ticks w))) = false ->
  options_line_safe opts = true ->
  Forall (fun h => holiday_line_safe h = true) holidays ->
  exists text,
    fst (generateICS holidays opts w) = Ok text
    /\ (forall (i : nat) (h : holiday), holidays !! i = Some h ->
          exists block,
            event_blocks (doc_lines text) !! i = Some block
            /\ ((exists l, l ∈ block
                           /\ starts_with "X-OBSERVED-DATE:" l = true)
                <-> (truthy (observed h) = true
                     /\ observed h <> Some (date h)))
            /\ (forall o, observed h = Some o -> o <> "" -> o <> date h ->
                  List.filter (starts_with "X-OBSERVED-DATE:") block
                  = ["X-OBSERVED-DATE:" +:+ formatDate o])
            /\ (observed h = Some (date h) ->
                List.filter (starts_with "X-OBSERVED-DATE:") block = []))
    /\ (forall o, has_char "-" (formatDate o) = false)
    /\ (forall o, all_chars digit_or_dash o = true ->
                  all_digits (formatDate o) = true)
    /\ (forall y m d,
          has_char "-" y = false -> has_char "-" m = false ->
          has_char "-" d = false ->
          formatDate (y +:+ "-" +:+ m +:+ "-" +:+ d) = y +:+ m +:+ d).
Proof.
  intros Hclk Ho Hhs.
  destruct (generateICS_text_blocks holidays opts w Hclk Ho Hhs)
    as (text & Hrun & _ & Hb).
  exists text. rewrite Hrun, Hb. split; [reflexivity|].
  split; [|split; [|split]].
  - intros i h Hi. eexists. split.
    { rewrite list_lookup_fmap, Hi. reflexivity. }
    pose proof (event_of_observed (formatDateTimeUTC (clock w (ticks w)))
                  opts h) as Hf.
    assert (Hin : forall l,
              (l ∈ event_of (formatDateTimeUTC (clock w (ticks w))) opts h
               /\ starts_with "X-OBSERVED-DATE:" l = true)
              <-> l ∈ List.filter (starts_with "X-OBSERVED-DATE:")
                        (event_of (formatDateTimeUTC (clock w (ticks w)))
                           opts h)).
    { intros l. rewrite !list_elem_of_In, List.filter_In. reflexivity. }
    split; [|split].
    + split.
      * intros (l & Hl). apply Hin in Hl. rewrite Hf in Hl.
        destruct (observed h) as [[|a o]|];
          try (now apply elem_of_nil in Hl).
        destruct (String.eqb (String a o) (date h)) eqn:E;
          [now apply elem_of_nil in Hl|].
        apply String.eqb_neq in E. split; [reflexivity | congruence].
      * intros [Ht Hd].
        destruct (observed h) as [[|a o]|]; try discriminate Ht.
        exists ("X-OBSERVED-DATE:" +:+ formatDate (String a o)).
        apply Hin. rewrite Hf.
        destruct (String.eqb (String a o) (date h)) eqn:E.
        { apply String.eqb_eq in E. congruence. }
        apply list_elem_of_here.
    + intros o Hob Hne Hd. rewrite Hf, Hob.
      destruct o as [|a o]; [congruence|].
      apply String.eqb_neq in Hd. now rewrite Hd.
    + intros Hob. rewrite Hf, Hob.
      destruct (date h) as [|a d]; [reflexivity|].
      now rewrite String.eqb_refl.
  - intros o. now apply has_char_replace_char.
  - apply formatDate_digits.
  - intros y m d Hy Hm Hd. unfold formatDate.
    rewrite !replace_char_app.
    rewrite (replace_char_absent _ _ y Hy), (replace_char_absent _ _ m Hm),
      (replace_char_absent _ _ d Hd).
    reflexivity.
Qed.

Lemma generateICS_observed_line_witness :
  exists text block,
    fst (generateICS
           [Holiday "2025-07-04" "Independence Day" None "public"
              (Some "2025-07-03")]
           (Options "US" 2025 None) offline) = Ok text
    /\ event_blocks (doc_lines text) !! 0%nat = Some block
    /\ List.filter (starts_with "X-OBSERVED-DATE:") block
       = ["X-OBSERVED-DATE:20250703"].
Proof.
  destruct (generateICS_observed_line
              [Holiday "2025-07-04" "Independence Day" None "public"
                 (Some "2025-07-03")]
              (Options "US" 2025 None) offline)
    as (text & Ht & Hall & _); [reflexivity | reflexivity | repeat constructor|].
  destruct (Hall 0%nat _ eq_refl) as (block & Hb & _ & Hline & _).
  exists text, block. split; [exact Ht|]. split; [exact Hb|].
  apply (Hline "2025-07-03"); [reflexivity | discriminate | discriminate].
Defined.

(** ** C9: one timestamp per render *)

(** A [type] with line breaks in it can close the block, open another and
    give it a timestamp line of its own: the two blocks of this text, made
    from one record, carry different [DTSTAMP] lines. *)
Lemma generateICS_type_forges_dtstamp :
  fst (generateICS
         [Holiday "2025-01-01" "N" None
            ("x" +:+ CRLF +:+ "END:VEVENT" +:+ CRLF +:+ "BEGIN:VEVENT"
               +:+ CRLF +:+ "DTSTAMP:19990101T000000Z" +:+ CRLF +:+ "X-A:")
            None]
         (Options "US" 2025 None) offline)
  = Ok (join CRLF
          (ics_lines "20250101T000000Z"
             [Holiday "2025-01-01" "N" None
                ("x" +:+ CRLF +:+ "END:VEVENT" +:+ CRLF +:+ "BEGIN:VEVENT"
                   +:+ CRLF +:+ "DTSTAMP:19990101T000000Z" +:+ CRLF
                   +:+ "X-A:") None]
             (Options "US" 2025 None)))
  /\ map (List.filter (starts_with "DTSTAMP:"))
       (event_blocks
          (doc_lines
             (join CRLF
                (ics_lines "20250101T000000Z"
                   [Holiday "2025-01-01" "N" None
                      ("x" +:+ CRLF +:+ "END:VEVENT" +:+ CRLF
                         +:+ "BEGIN:VEVENT" +:+ CRLF
                         +:+ "DTSTAMP:19990101T000000Z" +:+ CRLF +:+ "X-A:")
                      None]
                   (Options "US" 2025 None)))))
     = [["DTSTAMP:20250101T000000Z"]; ["DTSTAMP:19990101T000000Z"]].
Proof. split; reflexivity. Qed.

(** C9, amended. Within one render the clock is read once, before the loop.  When
    the fields that are written unescaped and the clock's text hold no
    carriage return, every event block of the rendered text holds exactly
    one [DTSTAMP] line, which carries that one reading: the [DTSTAMP] lines
    of any two event blocks are equal, however the clock moves between
    readings, and the text has no other [DTSTAMP] line. *)
Theorem generateICS_shared_dtstamp
    (holidays : list holiday) (opts : options) (w : World) :
  has_char CR (toISOString (clock w (ticks w))) = false ->
  options_line_safe opts = true ->
  Forall (fun h => holiday_line_safe h = true) holidays ->
  exists text timestamp,
    fst (generateICS holidays opts w) = Ok text
    /\ timestamp = formatDateTimeUTC (clock w (ticks w))
    /\ ticks (snd (generateICS holidays opts w)) = S (ticks w)
    /\ length (event_blocks (doc_lines text)) = length holidays
    /\ Forall (fun block =>
         List.filter (starts_with "DTSTAMP:") block = ["DTSTAMP:" +:+ timestamp])
         (event_blocks (doc_lines text))
    /\ List.filter (starts_with "DTSTAMP:") (doc_lines text)
       = replicate (length holidays) ("DTSTAMP:" +:+ timestamp).
Proof.
  intros Hclk Ho Hhs.
  destruct (generateICS_text_blocks holidays opts w Hclk Ho Hhs)
    as (text & Hrun & Hl & Hb).
  exists text, (formatDateTimeUTC (clock w (ticks w))).
  rewrite Hrun, Hb, Hl. repeat split.
  - apply length_map.
  - apply Forall_forall.
    intros block [h [-> _]]%list_elem_of_fmap. apply event_of_dtstamp.
  - rewrite ics_lines_eq, !List.filter_app.
    change (List.filter (starts_with "DTSTAMP:") (header opts)) with (@nil string).
    change (List.filter (starts_with "DTSTAMP:") ["END:VCALENDAR"])
      with (@nil string).
    cbn [app]. rewrite app_nil_r.
    clear. induction holidays as [|h hs IH]; [reflexivity|].
    cbn [map concat length replicate].
    now rewrite List.filter_app, event_of_dtstamp, IH.
Qed.

Lemma generateICS_shared_dtstamp_witness :
  exists text,
    fst (generateICS
           [Holiday "2025-12-25" "Christmas Day" None "public" None;
            Holiday "2025-12-26" "Boxing Day" None "public"
              (Some "2025-12-28")]
           (Options "GB" 2025 None) offline) = Ok text
    /\ Forall (fun block =>
         List.filter (starts_with "DTSTAMP:") block
         = ["DTSTAMP:20250101T000000Z"])
         (event_blocks (doc_lines text))
    /\ length (event_blocks (doc_lines text)) = 2%nat.
Proof.
  destruct (generateICS_shared_dtstamp
              [Holiday "2025-12-25" "Christmas Day" None "public" None;
               Holiday "2025-12-26" "Boxing Day" None "public"
                 (Some "2025-12-28")]
              (Options "GB" 2025 None) offline)
    as (text & ts & Ht & -> & _ & Hn & Hall & _);
    [reflexivity | reflexivity | repeat constructor|].
  exists text. split; [exact Ht|]. split; [exact Hall | exact Hn].
Defined.

(** ** More on escaping *)

Lemma has_char_replace_other c d r (s : string) :
  has_char c r = false -> has_char c s = false ->
  has_char c (replace_char d r s) = false.
Proof.
  intros Hr. induction s as [|a s IH]; [reflexivity|].
  cbn. intros [Ha Hs]%orb_false_elim.
  destruct (Ascii.eqb a d).
  - now rewrite has_char_app, Hr, IH.
  - cbn. now rewrite Ha, IH.
Qed.

(** An escaped text holds neither a carriage return nor a line feed, so a
    name or a description never breaks its line, whatever it contains. *)
Theorem escapeText_line_safe (text : string) :
  has_char CR (escapeText text) = false
  /\ has_char LF (escapeText text) = false.
Proof.
  unfold escapeText. split.
  - now apply has_char_replace_char.
  - apply has_char_replace_other; [reflexivity|].
    now apply has_char_replace_char.
Qed.

Lemma escapeText_cons (a : ascii) (s : string) :
  escapeText (String a s) = escape_char a +:+ escapeText s.
Proof.
  change (String a s) with (String a "" +:+ s).
  now rewrite escapeText_app, escapeText_one.
Qed.

Lemma unescape_escape_char (a : ascii) (t : string) :
  unescape (escape_char a +:+ t)
  = (if Ascii.eqb a CR then "" else String a "") +:+ unescape t.
Proof. destruct a as [[] [] [] [] [] [] [] []]; reflexivity. Qed.

(** Escaping loses the carriage returns and nothing else: reading the
    backslash escapes back gives the text without its carriage returns, so
    two texts are escaped alike exactly when they differ in carriage returns
    only. *)
Theorem escapeText_loses_only_cr (a b : string) :
  unescape (escapeText a) = replace_char CR "" a
  /\ (escapeText a = escapeText b
      <-> replace_char CR "" a = replace_char CR "" b).
Proof.
  assert (Hun : forall s, unescape (escapeText s) = replace_char CR "" s).
  { induction s as [|x s IH]; [reflexivity|].
    rewrite escapeText_cons, unescape_escape_char, IH. cbn.
    destruct (Ascii.eqb x CR); reflexivity. }
  assert (Hcr : forall s, escapeText (replace_char CR "" s) = escapeText s).
  { induction s as [|x s IH]; [reflexivity|].
    cbn [replace_char]. destruct (Ascii.eqb x CR) eqn:E.
    - apply Ascii.eqb_eq in E as ->.
      rewrite (escapeText_cons CR s). exact IH.
    - now rewrite !escapeText_cons, IH. }
  split; [apply Hun|]. split.
  - intros H. now rewrite <- !Hun, H.
  - intros H. now rewrite <- (Hcr a), <- (Hcr b), H.
Qed.

(** A text without backslash, semicolon, comma, line feed and carriage
    return is left as it is. *)
Theorem escapeText_plain (text : string) :
  all_chars (fun a => negb (is_special a)) text = true ->
  escapeText text = text.
Proof.
  induction text as [|a s IH]; [reflexivity|].
  cbn [all_chars]. intros [Ha Hs]%andb_prop.
  rewrite escapeText_cons, (IH Hs).
  destruct a as [[] [] [] [] [] [] [] []]; try reflexivity; discriminate Ha.
Qed.

Lemma escapeText_plain_witness :
  escapeText "Martin Luther King Jr. Day" = "Martin Luther King Jr. Day".
Proof. apply (escapeText_plain "Martin Luther King Jr. Day"). reflexivity. Defined.

(** Escaping goes through concatenation: a text can be escaped piece by
    piece. *)
Theorem escapeText_concat (a b : string) :
  escapeText (a +:+ b) = escapeText a +:+ escapeText b.
Proof. unfold escapeText. now rewrite !replace_char_app. Qed.

(** ** More on the shape of a calendar *)

(** The block of a record has one [DESCRIPTION] line, holding the escaped
    description, when the description is a non-empty string, and none when
    it is absent or empty. *)
Theorem event_of_description_line (timestamp : string) (opts : options)
    (h : holiday) :
  List.filter (starts_with "DESCRIPTION:") (event_of timestamp opts h)
  = match description h with
    | Some (String _ _ as d) => ["DESCRIPTION:" +:+ escapeText d]
    | _ => []
    end.
Proof. event_cases h; reflexivity. Qed.

Lemma join_snoc sep (ls : list string) (l x : string) :
  join sep ((l :: ls) ++ [x]) = join sep (l :: ls) +:+ sep +:+ x.
Proof.
  revert l. induction ls as [|l' ls IH]; intros l; [reflexivity|].
  change (join sep ((l :: l' :: ls) ++ [x]))
    with (l +:+ sep +:+ join sep ((l' :: ls) ++ [x])).
  rewrite IH.
  change (join sep (l :: l' :: ls)) with (l +:+ sep +:+ join sep (l' :: ls)).
  now rewrite !string_app_assoc.
Qed.

(** Every rendered text opens with the two lines [BEGIN:VCALENDAR] and
    [VERSION:2.0] and ends with the line [END:VCALENDAR], with no line
    terminator after it; for an empty sequence of records the text is just
    the ten header lines and that last line, and there is no event block. *)
Theorem generateICS_frame (holidays : list holiday) (opts : options) (w : World) :
  exists text body,
    fst (generateICS holidays opts w) = Ok text
    /\ starts_with ("BEGIN:VCALENDAR" +:+ CRLF +:+ "VERSION:2.0" +:+ CRLF) text
       = true
    /\ text = body +:+ CRLF +:+ "END:VCALENDAR"
    /\ (holidays = [] ->
        text = join CRLF (header opts ++ ["END:VCALENDAR"])
        /\ length (header opts ++ ["END:VCALENDAR"]) = 11%nat
        /\ event_blocks (header opts ++ ["END:VCALENDAR"]) = []).
Proof.
  rewrite generateICS_run. cbn [fst].
  set (ts := formatDateTimeUTC (clock w (ticks w))).
  assert (Hl : ics_lines ts holidays opts
               = ("BEGIN:VCALENDAR"
                  :: "VERSION:2.0"
                  :: tl (tl (header opts))
                  ++ concat (map (event_of ts opts) holidays))
                 ++ ["END:VCALENDAR"]).
  { rewrite ics_lines_eq. reflexivity. }
  eexists. eexists. split; [reflexivity|].
  split; [|split].
  - rewrite Hl. reflexivity.
  - rewrite Hl. apply join_snoc.
  - intros ->. repeat split.
Qed.

Lemma generateICS_frame_witness :
  exists text,
    fst (generateICS [] (Options "US" 2025 None) offline) = Ok text
    /\ text = join CRLF (header (Options "US" 2025 None) ++ ["END:VCALENDAR"]).
Proof.
  destruct (generateICS_frame [] (Options "US" 2025 None) offline)
    as (text & body & Ht & _ & _ & He).
  exists text. split; [exact Ht|]. apply He. reflexivity.
Defined.

Lemma length_event_of ts opts h :
  length (event_of ts opts h)
  = (11 + (if truthy (description h) then 1 else 0)
        + (match observed h with
           | Some (String _ _ as o) => if String.eqb o (date h) then 0 else 1
           | _ => 0
           end))%nat.
Proof. event_cases h; reflexivity. Qed.

(** The size of a calendar: ten header lines, one closing line, and for each
    record between eleven and thirteen lines (eleven, one more with a
    description, one more with an observed date). *)
Theorem ics_lines_length (timestamp : string) (holidays : list holiday)
    (opts : options) :
  (11 + 11 * length holidays <= length (ics_lines timestamp holidays opts)
   <= 11 + 13 * length holidays)%nat
  /\ Forall (fun block => (11 <= length block <= 13)%nat)
       (event_blocks (ics_lines timestamp holidays opts)).
Proof.
  assert (Hb : forall h, (11 <= length (event_of timestamp opts h) <= 13)%nat).
  { intros h. rewrite length_event_of.
    destruct (truthy (description h));
      destruct (observed h) as [[|a o]|]; try destruct (String.eqb _ _); lia. }
  split.
  - rewrite ics_lines_eq, !length_app. cbn [header length].
    induction holidays as [|h hs IH]; cbn [map concat length]; [lia|].
    rewrite length_app. specialize (Hb h). lia.
  - rewrite event_blocks_ics_lines. apply Forall_forall.
    intros block [h [-> _]]%list_elem_of_fmap. apply Hb.
Qed.

(** Rendering two sequences one after the other: the event blocks of the
    joint calendar are the blocks of the first followed by the blocks of the
    second, and its lines are the lines of the first without its closing
    line, followed by the lines of the second without its header. *)
Theorem ics_lines_app (timestamp : string) (hs1 hs2 : list holiday)
    (opts : options) :
  event_blocks (ics_lines timestamp (hs1 ++ hs2) opts)
  = event_blocks (ics_lines timestamp hs1 opts)
    ++ event_blocks (ics_lines timestamp hs2 opts)
  /\ ics_lines timestamp (hs1 ++ hs2) opts
     = removelast (ics_lines timestamp hs1 opts)
       ++ drop 10 (ics_lines timestamp hs2 opts).
Proof.
  split.
  - now rewrite !event_blocks_ics_lines, map_app.
  - rewrite !ics_lines_eq, map_app, concat_app.
    assert (H1 : forall body : list string,
                   removelast (header opts ++ body ++ ["END:VCALENDAR"])
                   = header opts ++ body).
    { intros body. rewrite app_assoc. apply removelast_last. }
    rewrite H1.
    change (drop 10 (header opts ++ ?x)) with x.
    now rewrite <- !app_assoc.
Qed.

(** An empty region is an absent region: the calendar is the same text. *)
Theorem generateICS_empty_region (holidays : list holiday) (c : string) (y : Z)
    (w : World) :
  generateICS holidays (Options c y (Some "")) w
  = generateICS holidays (Options c y None) w
  /\ calendarName (Options c y (Some ""))
     = c +:+ " Public Holidays " +:+ string_of_Z y.
Proof. split; reflexivity. Qed.

Lemma generateICS_text_lines_witness :
  exists text timestamp,
    fst (generateICS
           [Holiday "2025-12-25" "Christmas Day" (Some "a; b") "public" None]
           (Options "GB" 2025 (Some "SCT")) offline) = Ok text
    /\ doc_lines text
       = ics_lines timestamp
           [Holiday "2025-12-25" "Christmas Day" (Some "a; b") "public" None]
           (Options "GB" 2025 (Some "SCT"))
    /\ event_blocks (doc_lines text)
       = map (event_of timestamp (Options "GB" 2025 (Some "SCT")))
           [Holiday "2025-12-25" "Christmas Day" (Some "a; b") "public" None].
Proof.
  apply (generateICS_text_lines
           [Holiday "2025-12-25" "Christmas Day" (Some "a; b") "public" None]
           (Options "GB" 2025 (Some "SCT")) offline);
    [reflexivity | reflexivity | repeat constructor].
Defined.

(** ** More on the resolver *)

(** What one attempt does to the world: the URL is added to the requests
    made, and nothing else changes. *)
Lemma attempt_world url w :
  snd (attempt url w)
  = {| clock := clock w; ticks := ticks w; network := network w;
       requests := requests w ++ [url] |}.
Proof.
  unfold attempt, try_catch, bind, axios_get, lift, ret.
  destruct (network w (requests w) url) as [[| | | | |items|]|e]; cbn;
    try reflexivity.
  destruct (map_throwing adapt items); reflexivity.
Qed.

Lemma attempt_usable url w items hs :
  network w (requests w) url = Ok (JArr items) ->
  map_throwing adapt items = Ok hs ->
  fst (attempt url w) = Ok (Some hs).
Proof.
  intros Hn Hm. unfold attempt, try_catch, bind, axios_get, lift, ret.
  now rewrite Hn, Hm.
Qed.

Lemma try_each_world urls w :
  exists k,
    (k <= length urls)%nat
    /\ requests (snd (try_each urls w)) = requests w ++ take k urls
    /\ ticks (snd (try_each urls w)) = ticks w
    /\ clock (snd (try_each urls w)) = clock w
    /\ network (snd (try_each urls w)) = network w
    /\ (fst (try_each urls w) = Ok None -> k = length urls).
Proof.
  revert w. induction urls as [|url urls IH]; intros w.
  - exists 0%nat. cbn. rewrite app_nil_r. repeat split; auto.
  - cbn [try_each]. unfold bind.
    pose proof (attempt_world url w) as Hw.
    destruct (attempt_total url w) as (r & w' & Ha & _).
    rewrite Ha in Hw |- *. cbn [snd] in Hw. subst w'.
    destruct r as [hs|].
    + exists 1%nat. cbn. repeat split; try reflexivity; try lia. discriminate.
    + destruct (IH {| clock := clock w; ticks := ticks w;
                      network := network w;
                      requests := requests w ++ [url] |})
        as (k & Hk & Hr & Ht & Hc & Hn & Hnone).
      exists (S k). cbn [length take]. cbn in Hr, Ht, Hc, Hn.
      rewrite Hr, Ht, Hc, Hn, <- app_assoc.
      repeat split; try reflexivity; try lia.
      intros H. now rewrite (Hnone H).
Qed.

Lemma fetchHolidays_world country year region w :
  exists k,
    (k <= 3)%nat
    /\ requests (snd (fetchHolidays country year region w))
       = requests w ++ take k (apis country year)
    /\ ticks (snd (fetchHolidays country year region w)) = ticks w
    /\ clock (snd (fetchHolidays country year region w)) = clock w
    /\ network (snd (fetchHolidays country year region w)) = network w
    /\ ((forall sent url, unusable (network w sent url) = true) -> k = 3%nat).
Proof.
  destruct (try_each_world (apis country year) w)
    as (k & Hk & Hr & Ht & Hc & Hn & Hnone).
  exists k. unfold fetchHolidays, bind, try_catch.
  destruct (try_each_total (apis country year) w) as (r & w' & E).
  rewrite E in *. cbn [fst snd] in *.
  assert (Hall : (forall sent url, unusable (network w sent url) = true) ->
                 k = 3%nat).
  { intros Hall.
    destruct (try_each_unusable (apis country year) w Hall) as (w'' & E').
    rewrite E in E'. injection E' as -> _. now apply Hnone. }
  destruct r; cbn; auto 10.
Qed.

Lemma map_throwing_length {A B} (f : A -> outcome B) items ys :
  map_throwing f items = Ok ys -> length ys = length items.
Proof.
  revert ys. induction items as [|x items IH]; intros ys; cbn.
  - now intros [= <-].
  - destruct (f x); [|discriminate].
    destruct (map_throwing f items); [|discriminate].
    intros [= <-]. cbn. now rewrite (IH _ eq_refl).
Qed.

(** When the first source answers with an array whose items can all be
    adapted, [fetchHolidays] returns the adapted items, one per item and in
    the array's order (none for an empty array), makes that one request only,
    and does not look at the static table. *)
Theorem fetchHolidays_first_source
    (country : string) (year : Z) (region : option string) (w : World)
    (items : list jsval) (hs : list holidayObj) :
  network w (requests w)
    ("https://date.nager.at/api/v3/PublicHolidays/" +:+ string_of_Z year
       +:+ "/" +:+ country)
  = Ok (JArr items) ->
  map_throwing adapt items = Ok hs ->
  fst (fetchHolidays country year region w) = Ok hs
  /\ length hs = length items
  /\ requests (snd (fetchHolidays country year region w))
     = requests w ++ ["https://date.nager.at/api/v3/PublicHolidays/"
                        +:+ string_of_Z year +:+ "/" +:+ country].
Proof.
  intros Hn Hm.
  pose proof (attempt_usable _ w items hs Hn Hm) as Ha.
  pose proof (attempt_world
                ("https://date.nager.at/api/v3/PublicHolidays/"
                   +:+ string_of_Z year +:+ "/" +:+ country) w) as Hw.
  unfold fetchHolidays, bind, try_catch, apis. cbn [try_each]. unfold bind.
  destruct (attempt _ w) as [r w'] eqn:E. cbn [fst snd] in Ha, Hw.
  subst r w'. cbn. split; [reflexivity|].
  split; [now apply (map_throwing_length adapt)|reflexivity].
Qed.

Lemma fetchHolidays_first_source_witness :
  fst (fetchHolidays "US" 2025 None
         {| clock := clock offline; ticks := 0;
            network := fun _ _ =>
              Ok (JArr [JObj [("date", JStr "2025-07-04");
                              ("name", JStr "Independence Day");
                              ("localName", JStr "Independence Day");
                              ("types", JArr [JStr "Public"])]]);
            requests := [] |})
  = Ok [ {| o_date := JStr "2025-07-04"; o_name := JStr "Independence Day";
            o_description := JUndefined; o_type := JStr "public";
            o_observed := JUndefined |} ].
Proof.
  eapply (fetchHolidays_first_source "US" 2025 None); reflexivity.
Defined.

Lemma map_throwing_throws {A B} (f : A -> outcome B) (items : list A) x :
  x ∈ items -> (exists e, f x = Throw e) ->
  exists e, map_throwing f items = Throw e.
Proof.
  intros Hin [e He]. induction items as [|y items IH].
  - now apply elem_of_nil in Hin.
  - cbn. apply elem_of_cons in Hin as [<- | Hin].
    + rewrite He. eauto.
    + destruct (f y); [|eauto]. destruct (IH Hin) as [e' ->]. eauto.
Qed.

(** One item that cannot be adapted spoils its whole array: an array with a
    [null] or [undefined] item, or with an item whose [types] is a number,
    is skipped like a failed request, and no part of it is returned. *)
Theorem unusable_array (items : list jsval) (item : jsval) :
  item ∈ items ->
  (item = JNull \/ item = JUndefined
   \/ exists props n, item = JObj props /\ own_prop props "types" = JNum n) ->
  unusable (Ok (JArr items)) = true
  /\ forall w url, network w (requests w) url = Ok (JArr items) ->
       fst (attempt url w) = Ok None.
Proof.
  intros Hin Hbad.
  assert (Hthrow : exists e, adapt item = Throw e).
  { destruct Hbad as [-> | [-> | (props & n & -> & Hty)]];
      [cbn; eauto | cbn; eauto |].
    unfold adapt. cbn. rewrite Hty. cbn. eauto. }
  destruct (map_throwing_throws adapt items item Hin Hthrow) as [e He].
  split.
  - cbn. now rewrite He.
  - intros w url Hn. unfold attempt, try_catch, bind, axios_get, lift, ret.
    now rewrite Hn, He.
Qed.

Lemma unusable_array_witness :
  unusable (Ok (JArr [JObj [("date", JStr "2025-01-01"); ("name", JStr "N")];
                      JNull])) = true.
Proof.
  apply (unusable_array _ JNull); [|now left].
  apply list_elem_of_further, list_elem_of_here.
Defined.

(** ** The static table and the encoder on its records *)

Lemma app_eq_cons (a b s : string) (x : ascii) :
  a +:+ b = String x s ->
  (a = "" /\ b = String x s) \/ (exists a', a = String x a' /\ a' +:+ b = s).
Proof.
  destruct a as [|y a]; [now left|].
  rewrite string_app_cons. intros [= -> H]. right. eauto.
Qed.

(** The keys of the table are country-dash-year; a key built from a country
    and a year is one of them only for the year 2025. *)
Lemma table_key (c : string) (y : Z) (cc : string) :
  String.length cc = 2%nat -> has_char "-" cc = false ->
  c +:+ "-" +:+ string_of_Z y = cc +:+ "-2025" -> c = cc /\ y = 2025.
Proof.
  intros Hlen Hd H.
  destruct cc as [|c0 [|c1 [|? ?]]]; try discriminate Hlen.
  cbn in Hd. apply orb_false_elim in Hd as [H0 Hd].
  apply orb_false_elim in Hd as [H1 _].
  change (String c0 (String c1 "") +:+ "-2025")
    with (String c0 (String c1 (String "-" "2025"))) in H.
  apply app_eq_cons in H as [[-> H] | (c' & -> & H)].
  { injection H as <- _. now rewrite Ascii.eqb_refl in H0. }
  apply app_eq_cons in H as [[-> H] | (c'' & -> & H)].
  { injection H as <- _. now rewrite Ascii.eqb_refl in H1. }
  apply app_eq_cons in H as [[-> H] | (c3 & -> & H)].
  - injection H as H. split; [reflexivity|].
    apply string_of_Z_inj. exact H.
  - exfalso.
    repeat (apply app_eq_cons in H as [[-> H] | (? & -> & H)];
            [discriminate H|]).
    match type of H with ?a +:+ _ = _ => destruct a; discriminate H end.
Qed.

Lemma fallback_nonempty_iff (country : string) (year : Z) :
  fallback country year <> []
  <-> year = 2025 /\ country ∈ ["US"; "GB"; "CA"; "DE"; "FR"].
Proof.
  unfold fallback. split.
  - destruct (enhancedHolidays !! _) as [entry|] eqn:E; [|congruence].
    intros _. apply elem_of_list_to_map_2 in E.
    repeat (apply elem_of_cons in E as [E | E];
            [ injection E as E _;
              match type of E with
              | _ = String ?a (String ?b _) =>
                  apply (table_key country year (String a (String b "")))
                    in E as [-> ->];
                  [ split; [reflexivity|];
                    repeat first [apply list_elem_of_here
                                 | apply list_elem_of_further]
                  | reflexivity | reflexivity ]
              end |]).
    now apply elem_of_nil in E.
  - intros [-> Hc].
    repeat (apply elem_of_cons in Hc as [-> | Hc]; [vm_compute; discriminate|]).
    now apply elem_of_nil in Hc.
Qed.

(** The static table knows five countries, for the year 2025 only: the
    fallback is non-empty exactly for those, and empty for every other
    country and every other year. *)
Theorem fallback_coverage (country : string) (year : Z) :
  fallback country year <> []
  <-> year = 2025 /\ country ∈ ["US"; "GB"; "CA"; "DE"; "FR"].
Proof. apply fallback_nonempty_iff. Qed.



(** The encoder throws on an object whose [date] or [name] is not a string,
    as a source may send them: no calendar is rendered, and the clock has
    been read by then. *)
Theorem generateICS_js_bad_record
    (holidays : list holidayObj) (o : holidayObj) (opts : options) (w : World) :
  o ∈ holidays ->
  (forall s, o_date o <> JStr s) \/ (forall s, o_name o <> JStr s) ->
  (exists e, fst (generateICS_js holidays opts w) = Throw e)
  /\ ticks (snd (generateICS_js holidays opts w)) = S (ticks w).
Proof.
  intros Hin Hbad.
  assert (Ho : exists e, as_holiday o = Throw e).
  { unfold as_holiday. destruct Hbad as [Hd | Hn].
    - destruct (o_date o); try (eexists; reflexivity). now destruct (Hd s).
    - destruct (o_date o); try (eexists; reflexivity).
      destruct (o_name o); try (eexists; reflexivity). now destruct (Hn s0). }
  destruct (map_throwing_throws as_holiday holidays o Hin Ho) as [e He].
  unfold generateICS_js, bind, new_Date, lift, ret. rewrite He. cbn. eauto.
Qed.

Lemma generateICS_js_bad_record_witness :
  exists e,
    fst (generateICS_js
           [ {| o_date := JNum 20250101; o_name := JStr "N";
                o_description := JUndefined; o_type := JStr "public";
                o_observed := JUndefined |} ]
           (Options "US" 2025 None) offline) = Throw e.
Proof.
  apply (generateICS_js_bad_record _
           {| o_date := JNum 20250101; o_name := JStr "N";
              o_description := JUndefined; o_type := JStr "public";
              o_observed := JUndefined |}).
  - apply list_elem_of_here.
  - left. discriminate.
Defined.

(** ** The resolver, source by source *)

(** What one attempt makes of the answer it gets. *)
Lemma attempt_cases url w :
  snd (attempt url w)
  = {| clock := clock w; ticks := ticks w; network := network w;
       requests := requests w ++ [url] |}
  /\ ((unusable (network w (requests w) url) = true
       /\ fst (attempt url w) = Ok None)
      \/ (exists items hs,
            network w (requests w) url = Ok (JArr items)
            /\ map_throwing adapt items = Ok hs
            /\ fst (attempt url w) = Ok (Some hs))).
Proof.
  split; [apply attempt_world|].
  unfold unusable, attempt, try_catch, bind, axios_get, lift, ret.
  destruct (network w (requests w) url) as [[| | | | |items|]|e];
    cbn [fst]; try (left; split; reflexivity).
  destruct (map_throwing adapt items) as [hs|e] eqn:Hm; cbn [fst].
  - right. exists items, hs. split; [reflexivity|]. split; [exact Hm|].
    reflexivity.
  - left. split; reflexivity.
Qed.

(** The loop over the sources: it asks them in order; every source it
    leaves behind gave nothing usable; it ends at the first usable answer,
    or after the last source. *)
Lemma try_each_spec urls w :
  exists k,
    (k <= length urls)%nat
    /\ requests (snd (try_each urls w)) = requests w ++ take k urls
    /\ ((exists j url items hs,
           k = S j /\ urls !! j = Some url
           /\ (forall i u, (i < j)%nat -> urls !! i = Some u ->
                 unusable (network w (requests w ++ take i urls) u) = true)
           /\ network w (requests w ++ take j urls) url = Ok (JArr items)
           /\ map_throwing adapt items = Ok hs
           /\ fst (try_each urls w) = Ok (Some hs))
        \/ (k = length urls
            /\ (forall i u, urls !! i = Some u ->
                  unusable (network w (requests w ++ take i urls) u) = true)
            /\ fst (try_each urls w) = Ok None)).
Proof.
  revert w. induction urls as [|url urls IH]; intros w.
  - exists 0%nat. cbn. rewrite app_nil_r. split; [lia|]. split; [reflexivity|].
    right. split; [reflexivity|]. split; [|reflexivity].
    intros i u H. discriminate H.
  - cbn [try_each]. unfold bind.
    destruct (attempt_cases url w) as [Hw Hr].
    destruct (attempt url w) as [r w'] eqn:E. cbn [fst snd] in Hw, Hr.
    subst w'.
    destruct Hr as [[Hun ->] | (items & hs & Hn & Hm & ->)].
    + destruct (IH {| clock := clock w; ticks := ticks w;
                      network := network w;
                      requests := requests w ++ [url] |})
        as (k & Hk & Hreq & Hcase).
      cbn [requests network] in Hreq, Hcase.
      assert (Hshift : forall i, (requests w ++ [url]) ++ take i urls
                                 = requests w ++ take (S i) (url :: urls)).
      { intros i. now rewrite <- app_assoc. }
      exists (S k). cbn [length]. split; [lia|].
      split; [now rewrite Hreq, Hshift|].
      destruct Hcase as [(j & u & items & hs & -> & Hj & Hbefore & Hn & Hm & Hres)
                        | (-> & Hall & Hres)].
      * left. exists (S j), u, items, hs. split; [reflexivity|].
        split; [exact Hj|]. split.
        { intros [|i] u' Hi Hu'.
          - injection Hu' as <-. cbn [take]. now rewrite app_nil_r.
          - rewrite <- Hshift. apply Hbefore; [lia | exact Hu']. }
        rewrite <- Hshift. auto.
      * right. split; [reflexivity|]. split; [|exact Hres].
        intros [|i] u' Hu'.
        { injection Hu' as <-. cbn [take]. now rewrite app_nil_r. }
        rewrite <- Hshift. now apply Hall.
    + exists 1%nat. cbn [length]. split; [lia|]. split; [reflexivity|].
      left. exists 0%nat, url, items, hs. cbn [take]. rewrite app_nil_r.
      repeat split; auto. intros i u Hi. lia.
Qed.

Lemma fetchHolidays_spec country year region w :
  exists k,
    (1 <= k <= 3)%nat
    /\ requests (snd (fetchHolidays country year region w))
       = requests w ++ take k (apis country year)
    /\ ((exists j url items hs,
           k = S j /\ apis country year !! j = Some url
           /\ (forall i u, (i < j)%nat -> apis country year !! i = Some u ->
                 unusable (network w (requests w
                                        ++ take i (apis country year)) u)
                 = true)
           /\ network w (requests w ++ take j (apis country year)) url
              = Ok (JArr items)
           /\ map_throwing adapt items = Ok hs
           /\ fst (fetchHolidays country year region w) = Ok hs)
        \/ (k = 3%nat
            /\ (forall i u, apis country year !! i = Some u ->
                  unusable (network w (requests w
                                         ++ take i (apis country year)) u)
                  = true)
            /\ fst (fetchHolidays country year region w)
               = Ok (fallback country year))).
Proof.
  destruct (try_each_spec (apis country year) w) as (k & Hk & Hreq & Hcase).
  exists k. unfold fetchHolidays, bind, try_catch.
  destruct (try_each (apis country year) w) as [r w'] eqn:E.
  cbn [fst snd] in Hreq, Hcase.
  destruct Hcase as [(j & u & items & hs & -> & Hj & Hbefore & Hn & Hm & ->)
                    | (-> & Hall & ->)].
  - cbn [fst snd ret]. split; [cbn in Hk; lia|]. split; [exact Hreq|].
    left. exists j, u, items, hs. auto 10.
  - cbn [fst snd ret]. split; [cbn; lia|]. split; [exact Hreq|].
    right. auto.
Qed.

(** ** C5: the static table is the last resort, and fetch never throws *)

(** A source that answers with an empty array has answered: the lookup ends
    there with the empty sequence, and the table is not consulted, although
    it has an entry for the key. *)
Lemma fetchHolidays_empty_answer_ends_lookup :
  fst (fetchHolidays "US" 2025 None empty_answers) = Ok []
  /\ requests (snd (fetchHolidays "US" 2025 None empty_answers))
     = ["https://date.nager.at/api/v3/PublicHolidays/2025/US"]
  /\ length <$> enhancedHolidays !! "US-2025" = Some 10%nat.
Proof.
  split; [reflexivity|]. split; [reflexivity|]. vm_compute. reflexivity.
Qed.

(** C5, amended. For every country, year and region, [fetchHolidays] returns a
    sequence and never throws.  When every source gives nothing usable (its
    request fails, its body is not an array, or one of the array's items
    cannot be adapted), the sequence is the static table's entry for the key
    "{country}-{year}" if the table has that key and the empty sequence if
    it has not; the table has the key exactly for the year 2025 and the
    countries US, GB, CA, DE and FR.  In general the result is the adapted
    answer of the first source whose answer is an array of items that can
    all be adapted, the empty array included, and the table is consulted only
    when none of the three sources gives such an answer. *)
Theorem fetchHolidays_fallback
    (country : string) (year : Z) (region : option string) (w : World) :
  (exists hs w', fetchHolidays country year region w = (Ok hs, w'))
  /\ ((forall sent url, unusable (network w sent url) = true) ->
      fst (fetchHolidays country year region w)
      = Ok (match enhancedHolidays !! (country +:+ "-" +:+ string_of_Z year) with
            | Some entry => map obj_of_holiday entry
            | None => []
            end)
      /\ (fst (fetchHolidays country year region w) <> Ok []
          <-> year = 2025 /\ country ∈ ["US"; "GB"; "CA"; "DE"; "FR"]))
  /\ ((exists j url items hs,
         apis country year !! j = Some url
         /\ (forall i u, (i < j)%nat -> apis country year !! i = Some u ->
               unusable (network w (requests w
                                      ++ take i (apis country year)) u)
               = true)
         /\ network w (requests w ++ take j (apis country year)) url
            = Ok (JArr items)
         /\ map_throwing adapt items = Ok hs
         /\ fst (fetchHolidays country year region w) = Ok hs)
      \/ ((forall i u, apis country year !! i = Some u ->
             unusable (network w (requests w
                                    ++ take i (apis country year)) u)
             = true)
          /\ fst (fetchHolidays country year region w)
             = Ok (match enhancedHolidays
                           !! (country +:+ "-" +:+ string_of_Z year) with
                   | Some entry => map obj_of_holiday entry
                   | None => []
                   end))).
Proof.
  split; [|split].
  - unfold fetchHolidays, bind, try_catch.
    destruct (try_each_total (apis country year) w) as (r & w' & ->).
    unfold ret. destruct r; eauto.
  - intros Hall.
    assert (Hres : fst (fetchHolidays country year region w)
                   = Ok (fallback country year)).
    { unfold fetchHolidays, bind, try_catch.
      destruct (try_each_unusable (apis country year) w Hall) as (w' & ->).
      reflexivity. }
    split; [exact Hres|]. rewrite Hres, <- fallback_nonempty_iff.
    split; [congruence|]. intros H [= E]. now apply H.
  - destruct (fetchHolidays_spec country year region w)
      as (k & _ & _ & [(j & u & items & hs & _ & H) | (_ & H)]).
    + left. now exists j, u, items, hs.
    + right. exact H.
Qed.

Lemma fetchHolidays_fallback_witness :
  fst (fetchHolidays "DE" 2025 None offline)
  = Ok (match enhancedHolidays !! ("DE" +:+ "-" +:+ string_of_Z 2025) with
        | Some entry => map obj_of_holiday entry
        | None => []
        end)
  /\ fst (fetchHolidays "DE" 2025 None offline) <> Ok [].
Proof.
  destruct (fetchHolidays_fallback "DE" 2025 None offline)
    as (_ & H & _).
  destruct H as [Hres Hne]; [intros sent url; reflexivity|].
  split; [exact Hres|]. apply Hne. split; [reflexivity|].
  apply list_elem_of_further, list_elem_of_further, list_elem_of_further,
    list_elem_of_here.
Defined.

(** [fetchHolidays] asks the three sources in their fixed order and stops at
    the first it can use.  The requests it adds are the first [k] of the
    three URLs, with [k] at least one.  Every source before the last one
    asked gave nothing usable.  Either the last one asked answered with an
    array whose items could all be adapted, and the result is that array
    adapted; or all three were asked, none gave anything usable, and the
    result is the static table's.  It never reads the clock and leaves the
    rest of the world as it was. *)
Theorem fetchHolidays_requests
    (country : string) (year : Z) (region : option string) (w : World) :
  exists k,
    (1 <= k <= 3)%nat
    /\ requests (snd (fetchHolidays country year region w))
       = requests w ++ take k (apis country year)
    /\ ticks (snd (fetchHolidays country year region w)) = ticks w
    /\ clock (snd (fetchHolidays country year region w)) = clock w
    /\ network (snd (fetchHolidays country year region w)) = network w
    /\ ((exists j url items hs,
           k = S j /\ apis country year !! j = Some url
           /\ (forall i u, (i < j)%nat -> apis country year !! i = Some u ->
                 unusable (network w (requests w
                                        ++ take i (apis country year)) u)
                 = true)
           /\ network w (requests w ++ take j (apis country year)) url
              = Ok (JArr items)
           /\ map_throwing adapt items = Ok hs
           /\ fst (fetchHolidays country year region w) = Ok hs)
        \/ (k = 3%nat
            /\ (forall i u, apis country year !! i = Some u ->
                  unusable (network w (requests w
                                         ++ take i (apis country year)) u)
                  = true)
            /\ fst (fetchHolidays country year region w)
               = Ok (fallback country year))).
Proof.
  destruct (fetchHolidays_spec country year region w) as (k & Hk & Hreq & Hcase).
  destruct (fetchHolidays_world country year region w)
    as (_ & _ & _ & Ht & Hc & Hn & _).
  exists k. auto 10.
Qed.

Lemma fetchHolidays_requests_witness :
  requests (snd (fetchHolidays "US" 2025 None second_answers))
  = take 2 (apis "US" 2025).
Proof.
  destruct (fetchHolidays_requests "US" 2025 None second_answers)
    as (k & _ & Hreq & _ & _ & _ & Hcase).
  rewrite Hreq.
  destruct Hcase as [(j & url & items & hs & -> & Hj & Hbefore & Hn & _)
                    | (_ & Hall & _)].
  - destruct j as [|[|[|j]]]; [discriminate Hn | reflexivity | | discriminate Hj].
    specialize (Hbefore 1%nat _ ltac:(lia) eq_refl). discriminate Hbefore.
  - specialize (Hall 1%nat _ eq_refl). discriminate Hall.
Defined.

(** What the adapter makes of an item: [date] and [name] are the item's own;
    the description is the item's [localName] when that is not identical to
    the name, and [undefined] when it is; the type is either [public] or
    [bank], [public] exactly when the item's [types] include ['Public']; and
    there is no observed date. *)
Theorem adapt_record (item : jsval) (r : holidayObj) :
  adapt item = Ok r ->
  get_prop item "date" = Ok (o_date r)
  /\ get_prop item "name" = Ok (o_name r)
  /\ (exists localName,
        get_prop item "localName" = Ok localName
        /\ o_description r
           = if strict_eq localName (o_name r) then JUndefined else localName)
  /\ (o_type r = JStr "public" \/ o_type r = JStr "bank")
  /\ (o_type r = JStr "public"
      <-> exists types, get_prop item "types" = Ok types
                        /\ includes_Public types = Ok true)
  /\ o_observed r = JUndefined.
Proof.
  unfold adapt.
  destruct (get_prop item "date") as [d|]; [|discriminate].
  destruct (get_prop item "name") as [n|]; [|discriminate].
  destruct (get_prop item "localName") as [ln|]; [|discriminate].
  destruct (get_prop item "types") as [ty|]; [|discriminate].
  destruct (includes_Public ty) as [pub|] eqn:Ep; [|discriminate].
  intros [= <-]. cbn.
  repeat split; try reflexivity.
  - exists ln. split; [reflexivity|]. now destruct (strict_eq ln n).
  - destruct pub; auto.
  - destruct pub; [eauto | discriminate].
  - intros (types & [= <-] & Hp). rewrite Ep in Hp. now injection Hp as ->.
Qed.

Lemma adapt_record_witness :
  exists r,
    adapt (JObj [("date", JStr "2025-05-05");
                 ("name", JStr "Early May Bank Holiday");
                 ("localName", JStr "May Day");
                 ("types", JArr [JStr "Bank"])]) = Ok r
    /\ get_prop (JObj [("date", JStr "2025-05-05");
                       ("name", JStr "Early May Bank Holiday");
                       ("localName", JStr "May Day");
                       ("types", JArr [JStr "Bank"])]) "name"
       = Ok (o_name r)
    /\ o_description r = JStr "May Day"
    /\ o_observed r = JUndefined.
Proof.
  eexists. split; [reflexivity|].
  destruct (adapt_record
              (JObj [("date", JStr "2025-05-05");
                     ("name", JStr "Early May Bank Holiday");
                     ("localName", JStr "May Day");
                     ("types", JArr [JStr "Bank"])]) _ eq_refl)
    as (_ & Hn & (ln & Hln & Hd) & _ & _ & Ho).
  split; [exact Hn|]. split; [|exact Ho].
  injection Hln as <-. exact Hd.
Defined.

(** ** Reading a year *)

Ltac eval_digit :=
  match goal with
  | |- context [digit_value 10 ?c] =>
      let v := eval vm_compute in (digit_value 10 c) in
      change (digit_value 10 c) with v; cbv iota beta
  end.

Lemma digits_prefix_acc (d : Decimal.uint) (acc : positive) :
  digits_prefix 10 (NilEmpty.string_of_uint d) (Some (Z.pos acc))
  = Some (Z.pos (Pos.of_uint_acc d acc)).
Proof.
  revert acc. induction d; intros acc; cbn -[Z.mul Z.add Pos.mul Pos.add];
    [reflexivity|..]; eval_digit;
    match goal with
    | |- digits_prefix _ _ (Some ?v) = Some (Z.pos (Pos.of_uint_acc _ ?a)) =>
        replace v with (Z.pos a) by lia
    end; apply IHd.
Qed.

Lemma digits_prefix_zero (d : Decimal.uint) :
  digits_prefix 10 (NilEmpty.string_of_uint d) (Some 0)
  = Some (Z.of_N (Pos.of_uint d)).
Proof.
  induction d; cbn -[Pos.of_uint_acc Z.mul Z.add]; [reflexivity|..];
    eval_digit; first [exact IHd | apply digits_prefix_acc].
Qed.

Lemma digits_prefix_uint (d : Decimal.uint) :
  d <> Decimal.Nil ->
  digits_prefix 10 (NilEmpty.string_of_uint d) None = Some (Z.of_uint d).
Proof.
  unfold Z.of_uint.
  destruct d; intros Hd; [congruence|..];
    cbn -[Pos.of_uint_acc Z.mul Z.add]; eval_digit;
    first [apply digits_prefix_zero | apply digits_prefix_acc].
Qed.

Lemma all_digits_uint (d : Decimal.uint) :
  all_digits (NilEmpty.string_of_uint d) = true.
Proof. induction d; cbn; auto. Qed.

(** On a non-empty text of decimal digits, [parseInt] is the value of the
    digits: no white space, no sign and no hexadecimal prefix to deal
    with. *)
Lemma parseInt_digits (s : string) :
  s <> "" -> all_digits s = true ->
  parseInt s = digits_prefix 10 s None
  /\ parseInt (String "-" s)
     = match digits_prefix 10 s None with
       | Some v => Some (- v)
       | None => None
       end.
Proof.
  intros Hs Hall. destruct s as [|c rest]; [congruence|].
  cbn [all_digits all_chars] in Hall. apply andb_prop in Hall as [Hc Hrest].
  assert (Hone : forall v : option Z,
            match v with Some x => Some (1 * x) | None => None end = v).
  { intros [x|]; [now rewrite Z.mul_1_l | reflexivity]. }
  assert (Hneg : forall v : option Z,
            match v with Some x => Some (-1 * x) | None => None end
            = match v with Some x => Some (- x) | None => None end).
  { intros [x|]; [f_equal; lia | reflexivity]. }
  assert (Hfin : forall s : string,
            parseInt s
            = match digits_prefix 10 s None with
              | Some x => Some (1 * x)
              | None => None
              end ->
            parseInt (String "-" s)
            = match digits_prefix 10 s None with
              | Some x => Some (-1 * x)
              | None => None
              end ->
            parseInt s = digits_prefix 10 s None
            /\ parseInt (String "-" s)
               = match digits_prefix 10 s None with
                 | Some v => Some (- v)
                 | None => None
                 end).
  { intros s H1 H2. rewrite H1, H2, Hone, Hneg. auto. }
  destruct c as [[] [] [] [] [] [] [] []]; try discriminate Hc;
    (destruct rest as [|x r]; [apply Hfin; reflexivity|]);
    cbn [all_digits all_chars] in Hrest;
    apply andb_prop in Hrest as [Hx _];
    destruct x as [[] [] [] [] [] [] [] []]; try discriminate Hx;
    (destruct r as [|y r']; apply Hfin; reflexivity).
Qed.

Lemma parseInt_string_of_Z (n : Z) : parseInt (string_of_Z n) = Some n.
Proof.
  unfold string_of_Z.
  destruct n as [|p|p]; [reflexivity|..]; cbn [Z.to_int NilEmpty.string_of_int].
  - destruct (parseInt_digits (NilEmpty.string_of_uint (Pos.to_uint p)))
      as [-> _].
    + pose proof (Unsigned.to_uint_nonnil p).
      destruct (Pos.to_uint p); [congruence|..]; discriminate.
    + apply all_digits_uint.
    + rewrite digits_prefix_uint by apply Unsigned.to_uint_nonnil.
      unfold Z.of_uint. now rewrite DecimalPos.Unsigned.of_to.
  - destruct (parseInt_digits (NilEmpty.string_of_uint (Pos.to_uint p)))
      as [_ ->].
    + pose proof (Unsigned.to_uint_nonnil p).
      destruct (Pos.to_uint p); [congruence|..]; discriminate.
    + apply all_digits_uint.
    + rewrite digits_prefix_uint by apply Unsigned.to_uint_nonnil.
      unfold Z.of_uint. now rewrite DecimalPos.Unsigned.of_to.
Qed.

(** In decimal, the year guard is the range test: for a request whose
    country passes and whose year is the decimal text of an integer [n], the
    request passes, with year [n], exactly when [n] is in [2000, 2030];
    otherwise it is rejected as [INVALID_YEAR]. *)
Theorem year_decimal (c : string) (n : Z) (r : option string) :
  c <> "" -> includes_country (toUpperCase c) = true ->
  check_request (Request (Some c) (Some (string_of_Z n)) r)
  = if (2000 <=? n) && (n <=? 2030)
    then Pass {| country := toUpperCase c; year := n;
                 region := option_map toUpperCase r |}
    else Reject 400 "INVALID_YEAR".
Proof.
  intros Hc Hin.
  rewrite (check_request_year
             (Request (Some c) (Some (string_of_Z n)) r) c eq_refl Hc Hin).
  cbn [q_year q_region].
  assert (Hne : exists a s, string_of_Z n = String a s).
  { destruct (string_of_Z n) as [|a s] eqn:E; [|eauto].
    pose proof (parseInt_string_of_Z n) as H. rewrite E in H. discriminate H. }
  destruct Hne as (a & s & E). rewrite E, <- E, parseInt_string_of_Z.
  destruct (n <? 2000) eqn:E1, (n >? 2030) eqn:E2,
           (2000 <=? n) eqn:E3, (n <=? 2030) eqn:E4; try reflexivity; lia.
Qed.

Lemma year_decimal_witness :
  check_request (Request (Some "de") (Some (string_of_Z 2030)) None)
  = if (2000 <=? 2030) && (2030 <=? 2030)
    then Pass {| country := toUpperCase "de"; year := 2030;
                 region := option_map toUpperCase None |}
    else Reject 400 "INVALID_YEAR".
Proof.
  apply (year_decimal "de" 2030 None); [discriminate | reflexivity].
Defined.

(** ** More on validation *)

Lemma upper_char_idem (a : ascii) : upper_char (upper_char a) = upper_char a.
Proof. destruct a as [[] [] [] [] [] [] [] []]; reflexivity. Qed.

Lemma toUpperCase_idem (s : string) : toUpperCase (toUpperCase s) = toUpperCase s.
Proof.
  unfold toUpperCase. induction s as [|a s IH]; [reflexivity|].
  cbn. now rewrite upper_char_idem, IH.
Qed.

Lemma includes_country_In (c : string) :
  includes_country c = true <-> In c VALID_COUNTRIES.
Proof.
  unfold includes_country. rewrite existsb_exists. split.
  - intros (x & Hx & E). apply String.eqb_eq in E. now subst.
  - intros H. exists c. split; [exact H | apply String.eqb_refl].
Qed.

(** Every listed country code is two upper-case letters. *)
Lemma valid_country_shape (c : string) :
  In c VALID_COUNTRIES ->
  String.length c = 2%nat /\ all_chars is_upper c = true.
Proof.
  intros H.
  assert (Hall : forallb (fun c => (String.length c =? 2)%nat
                                   && all_chars is_upper c) VALID_COUNTRIES
                 = true) by (vm_compute; reflexivity).
  rewrite forallb_forall in Hall. apply Hall in H.
  apply andb_prop in H as [H1 H2]. now apply Nat.eqb_eq in H1.
Qed.

Lemma upper_no_char (x : ascii) (c : string) :
  is_upper x = false -> all_chars is_upper c = true -> has_char x c = false.
Proof.
  intros Hx. induction c as [|a c IH]; [reflexivity|].
  cbn. intros [Ha Hc]%andb_prop. rewrite (IH Hc), orb_false_r.
  destruct (Ascii.eqb a x) eqn:E; [|reflexivity].
  apply Ascii.eqb_eq in E. congruence.
Qed.

Lemma check_request_pass_parts (req : request) (q : options) :
  check_request req = Pass q ->
  has_char "-" (country q) = false
  /\ In (country q) VALID_COUNTRIES
  /\ 2000 <= year q <= 2030.
Proof.
  unfold check_request.
  destruct (q_country req) as [[|a c]|]; try discriminate.
  destruct (includes_country (toUpperCase (String a c))) eqn:Hin;
    [|discriminate]. cbn [negb].
  destruct (q_year req) as [[|b y]|]; try discriminate.
  destruct (parseInt (String b y)) as [n|] eqn:Hp; [|discriminate].
  destruct ((n <? 2000) || (n >? 2030)) eqn:Hr; [discriminate|].
  intros [= <-]. cbn [country year region].
  apply includes_country_In in Hin.
  destruct (valid_country_shape _ Hin) as [Hlen Hup].
  apply in_range_test in Hr.
  split; [now apply upper_no_char | auto].
Qed.

(** Validation does not look at the case of the country or of the region: a
    request and the same request with both in upper case get the same
    verdict. *)
Theorem check_request_case (c : option string) (y r : option string) :
  check_request (Request (option_map toUpperCase c) y (option_map toUpperCase r))
  = check_request (Request c y r).
Proof.
  unfold check_request. cbn [q_country q_year q_region].
  destruct c as [[|a c]|]; try reflexivity.
  cbn [option_map]. change (toUpperCase (String a c))
    with (String (upper_char a) (toUpperCase c)).
  change (String (upper_char a) (toUpperCase c)) with (toUpperCase (String a c)).
  rewrite toUpperCase_idem.
  destruct r as [r|]; cbn [option_map]; rewrite ?toUpperCase_idem; reflexivity.
Qed.

Lemma uid_parts (h1 h2 : holiday) (c1 c2 : string) (y1 y2 : Z) :
  has_char "-" c1 = false -> has_char "-" c2 = false ->
  generateUID h1 c1 y1 = generateUID h2 c2 y2 ->
  formatDate (date h1) = formatDate (date h2)
  /\ toLowerCase (remove_non_alnum (name h1))
     = toLowerCase (remove_non_alnum (name h2))
  /\ c1 = c2 /\ y1 = y2.
Proof.
  intros Hc1 Hc2 H. unfold generateUID, formatDate in *.
  apply split_at_first in H as [Hd H];
    [| now apply has_char_replace_char ..].
  apply split_at_first in H as [Hn H]; [| apply slug_no_dash ..].
  apply split_at_first in H as [Hc H]; [| assumption ..].
  apply string_app_inv_tail, string_of_Z_inj in H. auto.
Qed.

(** Identifiers after validation: for the queries of two requests that
    passed, two events have the same UID only if their countries and years
    are the same (and their dates and names agree up to dashes, case and
    punctuation).  Calendars of different countries or years never share a
    UID. *)
Theorem validated_uid_distinct
    (req1 req2 : request) (q1 q2 : options) (h1 h2 : holiday) :
  check_request req1 = Pass q1 -> check_request req2 = Pass q2 ->
  generateUID h1 (country q1) (year q1) = generateUID h2 (country q2) (year q2) ->
  country q1 = country q2 /\ year q1 = year q2
  /\ formatDate (date h1) = formatDate (date h2)
  /\ toLowerCase (remove_non_alnum (name h1))
     = toLowerCase (remove_non_alnum (name h2)).
Proof.
  intros H1 H2 Hu.
  destruct (check_request_pass_parts req1 q1 H1) as [Hd1 _].
  destruct (check_request_pass_parts req2 q2 H2) as [Hd2 _].
  destruct (uid_parts h1 h2 _ _ _ _ Hd1 Hd2 Hu) as (? & ? & ? & ?). auto.
Qed.

Lemma validated_uid_distinct_witness :
  country (Options "GB" 2025 None) = country (Options "GB" 2025 (Some "SCT"))
  /\ year (Options "GB" 2025 None) = year (Options "GB" 2025 (Some "SCT"))
  /\ formatDate "2025-12-25" = formatDate "20251225"
  /\ toLowerCase (remove_non_alnum "Christmas Day")
     = toLowerCase (remove_non_alnum "Christmas day!").
Proof.
  apply (validated_uid_distinct
           (Request (Some "gb") (Some "2025") None)
           (Request (Some "GB") (Some "2025") (Some "sct"))
           (Options "GB" 2025 None) (Options "GB" 2025 (Some "SCT"))
           (Holiday "2025-12-25" "Christmas Day" None "public" None)
           (Holiday "20251225" "Christmas day!" None "bank" None));
    reflexivity.
Defined.

(** ** The route *)

Lemma fetchHolidays_total country year region w :
  exists hs w', fetchHolidays country year region w = (Ok hs, w').
Proof.
  unfold fetchHolidays, bind, try_catch.
  destruct (try_each_total (apis country year) w) as (r & w' & ->).
  unfold ret. destruct r; eauto.
Qed.

Lemma fetchHolidays_offline_table country year region w :
  (forall sent url, unusable (network w sent url) = true) ->
  fst (fetchHolidays country year region w) = Ok (fallback country year).
Proof.
  intros Hall. unfold fetchHolidays, bind, try_catch.
  destruct (try_each_unusable (apis country year) w Hall) as (w' & ->).
  reflexivity.
Qed.

(** What the handler does once the resolver has answered. *)
Lemma holidays_handler_after accepts q w objs w' :
  fetchHolidays (country q) (year q) (region q) w = (Ok objs, w') ->
  holidays_handler accepts q w
  = match objs with
    | [] => (Ok (JsonError 404 "NO_HOLIDAYS_FOUND"), w')
    | _ :: _ =>
        let w'' := {| clock := clock w'; ticks := S (ticks w');
                      network := network w'; requests := requests w' |} in
        match map_throwing as_holiday objs with
        | Throw _ => (Ok (JsonError 500 "INTERNAL_ERROR"), w'')
        | Ok hs =>
            if forallb (fun h => accepts (snd h))
                 (calendar_headers (length objs) q)
            then (Ok (Calendar
                        (join CRLF
                           (ics_lines (formatDateTimeUTC (clock w' (ticks w')))
                              hs q))), w'')
            else (Ok (JsonError 500 "INTERNAL_ERROR"), w'')
        end
    end.
Proof.
  intros Hf. unfold holidays_handler, try_catch, bind. rewrite Hf.
  destruct objs as [|o objs]; [reflexivity|].
  unfold generateICS_js, bind, new_Date, lift, ret, set_headers.
  destruct (map_throwing as_holiday (o :: objs)); [|reflexivity].
  destruct (forallb _ _); reflexivity.
Qed.

(** When the resolver has nothing, the handler answers 404 with
    [NO_HOLIDAYS_FOUND] and the encoder is not run: the clock is not read.
    In particular this is the answer when every source fails and the static
    table has no entry for the country and year. *)
Theorem holidays_handler_not_found
    (accepts : string -> bool) (q : options) (w : World) :
  (fst (fetchHolidays (country q) (year q) (region q) w) = Ok [] ->
   fst (holidays_handler accepts q w) = Ok (JsonError 404 "NO_HOLIDAYS_FOUND")
   /\ ticks (snd (holidays_handler accepts q w)) = ticks w)
  /\ ((forall sent url, unusable (network w sent url) = true) ->
      fallback (country q) (year q) = [] ->
      fst (holidays_handler accepts q w) = Ok (JsonError 404 "NO_HOLIDAYS_FOUND")).
Proof.
  assert (H404 : fst (fetchHolidays (country q) (year q) (region q) w) = Ok [] ->
            fst (holidays_handler accepts q w)
            = Ok (JsonError 404 "NO_HOLIDAYS_FOUND")
            /\ ticks (snd (holidays_handler accepts q w)) = ticks w).
  { intros Hf.
    destruct (fetchHolidays_world (country q) (year q) (region q) w)
      as (k & _ & _ & Ht & _).
    destruct (fetchHolidays (country q) (year q) (region q) w)
      as [r w'] eqn:E. cbn [fst snd] in Hf, Ht. subst r.
    rewrite (holidays_handler_after accepts q w [] w' E). auto. }
  split; [exact H404|].
  intros Hall Hfb. apply H404.
  now rewrite fetchHolidays_offline_table, Hfb.
Qed.

Lemma holidays_handler_not_found_witness :
  fst (holidays_handler (fun _ => true) (Options "JP" 2025 None) offline)
  = Ok (JsonError 404 "NO_HOLIDAYS_FOUND").
Proof.
  apply (holidays_handler_not_found (fun _ => true) (Options "JP" 2025 None)
           offline); [intros sent url; reflexivity | reflexivity].
Defined.




(** A header value that the HTTP layer refuses costs the whole answer: even
    with records found and rendered, the handler answers 500 with
    [INTERNAL_ERROR].  The only free text among the header values is the
    region, in the file name and in [X-Region]. *)
Theorem holidays_handler_refused_header
    (accepts : string -> bool) (q : options) (w : World)
    (o : holidayObj) (objs : list holidayObj) :
  fst (fetchHolidays (country q) (year q) (region q) w) = Ok (o :: objs) ->
  forallb (fun h => accepts (snd h))
    (calendar_headers (length (o :: objs)) q) = false ->
  fst (holidays_handler accepts q w) = Ok (JsonError 500 "INTERNAL_ERROR").
Proof.
  intros Hf Hacc.
  destruct (fetchHolidays (country q) (year q) (region q) w) as [r w'] eqn:E.
  cbn [fst] in Hf. subst r.
  rewrite (holidays_handler_after accepts q w _ w' E). cbv zeta.
  destruct (map_throwing as_holiday (o :: objs)); [|reflexivity].
  now rewrite Hacc.
Qed.

Lemma holidays_handler_refused_header_witness :
  fst (holidays_handler (fun v => negb (has_char LF v))
         (Options "US" 2025 (Some (String LF "X"))) offline)
  = Ok (JsonError 500 "INTERNAL_ERROR").
Proof.
  eapply (holidays_handler_refused_header _
            (Options "US" 2025 (Some (String LF "X"))) offline);
    vm_compute; reflexivity.
Defined.

(** ** Validation of the parsed query *)

Lemma validate_query_reject rq status code next w :
  check_query rq = Ok (Reject status code) ->
  validate_query rq next w = (Ok (JsonError status code), w).
Proof. unfold validate_query. now intros ->. Qed.

Lemma validate_query_pass rq q next w :
  check_query rq = Ok (Pass q) -> validate_query rq next w = next q w.
Proof. unfold validate_query. now intros ->. Qed.

Lemma validate_query_throw rq e next w :
  check_query rq = Throw e -> validate_query rq next w = (Throw e, w).
Proof. unfold validate_query. now intros ->. Qed.

(** On a query whose parameters are strings, the guards are those of
    [check_request]. *)
Lemma check_query_strings (req : request) :
  check_query (query_of_request req) = Ok (check_request req).
Proof.
  destruct req as [[[|a c]|] [[|b y]|] [r|]];
    unfold check_query, check_request; cbn;
    repeat match goal with
           | |- context [if ?b then _ else _] => destruct b
           | |- context [match parseInt ?s with _ => _ end] =>
               destruct (parseInt s)
           end; reflexivity.
Qed.

(** The guards that follow the country guards. *)
Lemma check_query_year rq c :
  p_country rq = Some (QString c) -> c <> "" ->
  includes_country (toUpperCase c) = true ->
  check_query rq
  = if absent (p_year rq) then Ok (Reject 400 "MISSING_YEAR")
    else
      match p_year rq with
      | None => Ok (Reject 400 "MISSING_YEAR")
      | Some y =>
          match to_string y with
          | Throw e => Throw e
          | Ok text =>
              match parseInt text with
              | None => Ok (Reject 400 "INVALID_YEAR")
              | Some n =>
                  if (n <? 2000) || (n >? 2030) then
                    Ok (Reject 400 "INVALID_YEAR")
                  else
                    match p_region rq with
                    | None =>
                        Ok (Pass {| country := toUpperCase c; year := n;
                                    region := None |})
                    | Some r =>
                        match upper_of r with
                        | Throw e => Throw e
                        | Ok region =>
                            Ok (Pass {| country := toUpperCase c; year := n;
                                        region := Some region |})
                        end
                    end
              end
          end
      end.
Proof.
  intros Hc Hne Hin. unfold check_query. rewrite Hc.
  destruct c as [|a c]; [congruence|].
  cbn [absent upper_of]. now rewrite Hin.
Qed.

Lemma holidays_handler_total accepts q w :
  exists r w',
    holidays_handler accepts q w = (Ok r, w')
    /\ match r with
       | Calendar _ => True
       | JsonError status code =>
           (status, code) = (404, "NO_HOLIDAYS_FOUND")
           \/ (status, code) = (500, "INTERNAL_ERROR")
       end.
Proof.
  destruct (fetchHolidays_total (country q) (year q) (region q) w)
    as (objs & w' & Hf).
  rewrite (holidays_handler_after accepts q w objs w' Hf).
  destruct objs as [|o objs]; [eexists _, _; split; [reflexivity|]; now left|].
  cbv zeta.
  destruct (map_throwing as_holiday (o :: objs));
    [|eexists _, _; split; [reflexivity|]; now right].
  destruct (forallb _ _); eexists _, _; (split; [reflexivity|]);
    [exact I | now right].
Qed.

Lemma holidays_app_cases accepts rq w :
  holidays_app accepts rq w
  = match check_query rq with
    | Throw e => (Ok (JsonError 500 "INTERNAL_ERROR"), w)
    | Ok (Reject status code) => (Ok (JsonError status code), w)
    | Ok (Pass q) => holidays_handler accepts q w
    end.
Proof.
  unfold holidays_app, validate_query, try_catch.
  destruct (check_query rq) as [[status code|q]|e]; try reflexivity.
  destruct (holidays_handler_total accepts q w) as (r & w' & -> & _).
  reflexivity.
Qed.

(** On a query whose parameters are strings the two routes agree. *)
Lemma holidays_app_strings accepts (req : request) w :
  holidays_app accepts (query_of_request req) w = holidays_route accepts req w.
Proof.
  rewrite holidays_app_cases, check_query_strings.
  unfold holidays_route, validateHolidayRequest.
  now destruct (check_request req).
Qed.

(** ** C8: the year guard *)

(** A year that has no text form.  The query [year[toString]=2025] gives
    the parameter as an object with an entry named [toString]; [parseInt]
    cannot convert it and throws, so the request is neither accepted nor
    rejected as [INVALID_YEAR]: the error-handling middleware answers it
    with status 500. *)
Lemma year_without_text_throws :
  check_query
    (Query (Some (QString "US"))
       (Some (QObject [("toString", QString "2025")])) None)
  = Throw "TypeError: Cannot convert object to primitive value"
  /\ holidays_app (fun _ => true)
       (Query (Some (QString "US"))
          (Some (QObject [("toString", QString "2025")])) None) offline
     = (Ok (JsonError 500 "INTERNAL_ERROR"), offline).
Proof. split; reflexivity. Qed.

(** C8, amended. For a query whose country has passed and whose region is absent or
    a string, validation accepts exactly when [year] is present, has a text
    form, and [parseInt] reads from that text an integer in [2000, 2030];
    that integer becomes the validated year and [next] is run with it.
    When [year] is absent (or empty) the request is rejected with status 400
    and code [MISSING_YEAR]; when it is present with a text from which no
    integer in the range is read, with status 400 and code [INVALID_YEAR];
    when it is present without a text form, [parseInt] throws and the
    error-handling middleware answers with status 500.  In none of these
    cases is [next], hence the resolver, run.  So 1999 and 2031 are
    rejected, 2000 and 2030 accepted. *)
Theorem year_validation (rq : query) (c : string) :
  p_country rq = Some (QString c) -> c <> "" -> ascii_text c = true ->
  includes_country (toUpperCase c) = true ->
  (p_region rq = None
   \/ exists r, p_region rq = Some (QString r) /\ ascii_text r = true) ->
  ((exists q, check_query rq = Ok (Pass q))
   <-> (exists y text n,
          p_year rq = Some y /\ to_string y = Ok text
          /\ parseInt text = Some n /\ 2000 <= n <= 2030))
  /\ (forall q, check_query rq = Ok (Pass q) ->
        2000 <= year q <= 2030
        /\ (exists y text,
              p_year rq = Some y /\ to_string y = Ok text
              /\ parseInt text = Some (year q))
        /\ forall next w, validate_query rq next w = next q w)
  /\ (absent (p_year rq) = true ->
        check_query rq = Ok (Reject 400 "MISSING_YEAR"))
  /\ (forall y text,
        p_year rq = Some y -> absent (p_year rq) = false ->
        to_string y = Ok text ->
        (forall n, parseInt text = Some n -> ~ 2000 <= n <= 2030) ->
        check_query rq = Ok (Reject 400 "INVALID_YEAR"))
  /\ (forall y e,
        p_year rq = Some y -> to_string y = Throw e ->
        check_query rq = Throw e
        /\ forall accepts w,
             holidays_app accepts rq w
             = (Ok (JsonError 500 "INTERNAL_ERROR"), w))
  /\ (forall status code next w,
        check_query rq = Ok (Reject status code) ->
        validate_query rq next w = (Ok (JsonError status code), w))
  /\ (forall e next w,
        check_query rq = Throw e -> validate_query rq next w = (Throw e, w))
  /\ (p_year rq = Some (QString "1999") \/ p_year rq = Some (QString "2031") ->
        check_query rq = Ok (Reject 400 "INVALID_YEAR"))
  /\ (p_year rq = Some (QString "2000") ->
        exists q, check_query rq = Ok (Pass q) /\ year q = 2000)
  /\ (p_year rq = Some (QString "2030") ->
        exists q, check_query rq = Ok (Pass q) /\ year q = 2030).
Proof.
  intros Hc Hne _ Hin Hreg.
  pose proof (check_query_year rq c Hc Hne Hin) as Hq.
  assert (Hup : forall u n,
            exists q,
              match p_region rq with
              | None => Ok (Pass {| country := u; year := n; region := None |})
              | Some r =>
                  match upper_of r with
                  | Throw e => Throw e
                  | Ok region =>
                      Ok (Pass {| country := u; year := n;
                                  region := Some region |})
                  end
              end = Ok (Pass q) /\ year q = n).
  { intros u n. destruct Hreg as [-> | (r & -> & _)]; cbn; eauto. }
  split; [split|].
  - intros [q Hp]. rewrite Hq in Hp.
    destruct (absent (p_year rq)); [discriminate|].
    destruct (p_year rq) as [y|]; [|discriminate].
    destruct (to_string y) as [text|] eqn:Ht; [|discriminate].
    destruct (parseInt text) as [n|] eqn:Hn; [|discriminate].
    destruct ((n <? 2000) || (n >? 2030)) eqn:E; [discriminate|].
    apply in_range_test in E. now exists y, text, n.
  - intros (y & text & n & Hy & Ht & Hp & Hr). rewrite Hq, Hy.
    assert (Ha : absent (Some y) = false).
    { destruct y as [[|a s]| |]; try reflexivity.
      cbn in Ht. injection Ht as <-. discriminate Hp. }
    rewrite Ha, Ht, Hp. apply in_range_test in Hr. rewrite Hr.
    destruct (Hup (toUpperCase c) n) as (q & Hq' & _). eauto.
  - split; [|split; [|split; [|split; [|split; [|split; [|split; [|split]]]]]]].
    + intros q Hp. split; [|split].
      * rewrite Hq in Hp.
        destruct (absent (p_year rq)); [discriminate|].
        destruct (p_year rq) as [y|]; [|discriminate].
        destruct (to_string y) as [text|]; [|discriminate].
        destruct (parseInt text) as [n|]; [|discriminate].
        destruct ((n <? 2000) || (n >? 2030)) eqn:E; [discriminate|].
        apply in_range_test in E.
        destruct Hreg as [Hr | (r & Hr & _)]; rewrite Hr in Hp; cbn in Hp;
          injection Hp as <-; exact E.
      * rewrite Hq in Hp.
        destruct (absent (p_year rq)); [discriminate|].
        destruct (p_year rq) as [y|]; [|discriminate].
        destruct (to_string y) as [text|] eqn:Ht; [|discriminate].
        destruct (parseInt text) as [n|] eqn:Hn; [|discriminate].
        destruct ((n <? 2000) || (n >? 2030)); [discriminate|].
        exists y, text. split; [reflexivity|]. split; [exact Ht|].
        destruct Hreg as [Hr | (r & Hr & _)]; rewrite Hr in Hp; cbn in Hp;
          injection Hp as <-; exact Hn.
      * intros next w. now apply validate_query_pass.
    + intros Ha. now rewrite Hq, Ha.
    + intros y text Hy Ha Ht Hbad. rewrite Hq, Ha, Hy, Ht.
      destruct (parseInt text) as [n|]; [|reflexivity].
      destruct ((n <? 2000) || (n >? 2030)) eqn:E; [reflexivity|].
      apply in_range_test in E. now destruct (Hbad n eq_refl).
    + intros y e Hy Ht.
      assert (Hthrow : check_query rq = Throw e).
      { rewrite Hq, Hy.
        assert (Ha : absent (Some y) = false).
        { destruct y as [[|a s]| |]; try reflexivity. discriminate Ht. }
        now rewrite Ha, Ht. }
      split; [exact Hthrow|]. intros accepts w.
      now rewrite holidays_app_cases, Hthrow.
    + intros status code next w. apply validate_query_reject.
    + intros e next w. apply validate_query_throw.
    + intros [Hy | Hy]; rewrite Hq, Hy; reflexivity.
    + intros Hy. rewrite Hq, Hy.
      change (absent (Some (QString "2000"))) with false.
      change (to_string (QString "2000")) with (@Ok string "2000").
      change (parseInt "2000") with (Some 2000).
      change ((2000 <? 2000) || (2000 >? 2030)) with false.
      cbv iota. apply Hup.
    + intros Hy. rewrite Hq, Hy.
      change (absent (Some (QString "2030"))) with false.
      change (to_string (QString "2030")) with (@Ok string "2030").
      change (parseInt "2030") with (Some 2030).
      change ((2030 <? 2000) || (2030 >? 2030)) with false.
      cbv iota. apply Hup.
Qed.

Lemma year_validation_witness :
  check_query (Query (Some (QString "us")) (Some (QString "2031")) None)
  = Ok (Reject 400 "INVALID_YEAR")
  /\ exists q,
       check_query
         (Query (Some (QString "us"))
            (Some (QArray [QString "2030"; QString "x"])) (Some (QString "ca")))
       = Ok (Pass q)
       /\ q = Options "US" 2030 (Some "CA").
Proof.
  split.
  - apply (year_validation
             (Query (Some (QString "us")) (Some (QString "2031")) None) "us");
      [reflexivity | discriminate | reflexivity | reflexivity
      | now left | now right].
  - destruct (year_validation
                (Query (Some (QString "us"))
                   (Some (QArray [QString "2030"; QString "x"]))
                   (Some (QString "ca"))) "us")
      as [[_ Hacc] _];
      [reflexivity | discriminate | reflexivity | reflexivity
      | right; exists "ca"; split; reflexivity |].
    destruct Hacc as [q Hq].
    { exists (QArray [QString "2030"; QString "x"]), "2030,x", 2030.
      repeat split; try reflexivity; lia. }
    exists q. split; [exact Hq|].
    vm_compute in Hq. injection Hq as <-. reflexivity.
Defined.

(** ** More on the validation of the parsed query *)

(** What a verdict of the guards says about the query. *)
Lemma check_query_inv (rq : query) :
  match check_query rq with
  | Ok (Reject status code) =>
      status = 400
      /\ ((code = "MISSING_COUNTRY" /\ absent (p_country rq) = true)
          \/ (code = "INVALID_COUNTRY"
              /\ exists c, p_country rq = Some (QString c) /\ c <> ""
                           /\ includes_country (toUpperCase c) = false)
          \/ ((code = "MISSING_YEAR" \/ code = "INVALID_YEAR")
              /\ exists c, p_country rq = Some (QString c) /\ c <> ""
                           /\ includes_country (toUpperCase c) = true))
  | Ok (Pass q) =>
      exists c y text,
        p_country rq = Some (QString c) /\ c <> ""
        /\ includes_country (toUpperCase c) = true
        /\ country q = toUpperCase c
        /\ p_year rq = Some y /\ to_string y = Ok text
        /\ parseInt text = Some (year q)
        /\ 2000 <= year q <= 2030
        /\ ((p_region rq = None /\ region q = None)
            \/ exists r, p_region rq = Some (QString r)
                         /\ region q = Some (toUpperCase r))
  | Throw e =>
      (exists v, p_country rq = Some v /\ forall s, v <> QString s)
      \/ (exists c, p_country rq = Some (QString c) /\ c <> ""
                    /\ includes_country (toUpperCase c) = true)
  end.
Proof.
  unfold check_query.
  destruct (p_country rq) as [[[|a c]|items|props]|]; cbn [absent upper_of];
    try (split; [reflexivity|]; left; split; reflexivity);
    try (left; eexists; split; [reflexivity|]; intros s; discriminate).
  destruct (includes_country (toUpperCase (String a c))) eqn:Hin; cbn [negb].
  2:{ split; [reflexivity|]. right; left. split; [reflexivity|].
      exists (String a c). split; [reflexivity|]. split; [discriminate|].
      exact Hin. }
  assert (Hc : exists c', Some (QString (String a c)) = Some (QString c')
                          /\ c' <> ""
                          /\ includes_country (toUpperCase c') = true).
  { exists (String a c). split; [reflexivity|]. split; [discriminate|].
    exact Hin. }
  destruct (absent (p_year rq)) eqn:Ha.
  { split; [reflexivity|]. right; right. split; [now left | exact Hc]. }
  destruct (p_year rq) as [y|].
  2:{ split; [reflexivity|]. right; right. split; [now left | exact Hc]. }
  destruct (to_string y) as [text|e] eqn:Ht; [|right; exact Hc].
  destruct (parseInt text) as [n|] eqn:Hn.
  2:{ split; [reflexivity|]. right; right. split; [now right | exact Hc]. }
  destruct ((n <? 2000) || (n >? 2030)) eqn:E.
  { split; [reflexivity|]. right; right. split; [now right | exact Hc]. }
  apply in_range_test in E.
  destruct (p_region rq) as [[r|items|props]|]; cbn [upper_of];
    try (right; exact Hc).
  - exists (String a c), y, text. cbn [country year region].
    repeat split; try reflexivity; try assumption; try discriminate; try lia.
    right. now exists r.
  - exists (String a c), y, text. cbn [country year region].
    repeat split; try reflexivity; try assumption; try discriminate; try lia.
    now left.
Qed.

(** A query that passes validation yields a normal form.  For a country
    and a region that are ASCII texts: the country is the given one in upper
    case and is one of the listed two-letter codes (so it has no dash and no
    line break), the year is what [parseInt] read from the text of the given
    one and lies in [2000, 2030], and the region is absent or the given one
    in upper case. *)
Theorem check_query_pass (rq : query) (q : options) :
  ascii_if_text (p_country rq) = true ->
  ascii_if_text (p_region rq) = true ->
  check_query rq = Ok (Pass q) ->
  (exists c, p_country rq = Some (QString c) /\ country q = toUpperCase c)
  /\ In (country q) VALID_COUNTRIES
  /\ String.length (country q) = 2%nat
  /\ all_chars is_upper (country q) = true
  /\ has_char "-" (country q) = false
  /\ line_safe (country q) = true
  /\ (exists y text,
        p_year rq = Some y /\ to_string y = Ok text
        /\ parseInt text = Some (year q))
  /\ 2000 <= year q <= 2030
  /\ ((p_region rq = None /\ region q = None)
      \/ exists r, p_region rq = Some (QString r)
                   /\ region q = Some (toUpperCase r)).
Proof.
  intros _ _ Hp. pose proof (check_query_inv rq) as H. rewrite Hp in H.
  destruct H as (c & y & text & Hc & _ & Hin & Hq & Hy & Ht & Hn & Hr & Hreg).
  rewrite <- Hq in Hin. apply includes_country_In in Hin.
  destruct (valid_country_shape _ Hin) as [Hlen Hup].
  split; [now exists c|]. split; [exact Hin|]. split; [exact Hlen|].
  split; [exact Hup|]. split; [now apply upper_no_char|].
  split; [unfold line_safe; now rewrite (upper_no_char CR _ eq_refl Hup)|].
  split; [now exists y, text|]. split; [exact Hr | exact Hreg].
Qed.

Lemma check_query_pass_witness :
  (exists c,
     p_country (Query (Some (QString "gb")) (Some (QString "2025"))
                  (Some (QString "sct"))) = Some (QString c)
     /\ country (Options "GB" 2025 (Some "SCT")) = toUpperCase c)
  /\ In (country (Options "GB" 2025 (Some "SCT"))) VALID_COUNTRIES.
Proof.
  destruct (check_query_pass
              (Query (Some (QString "gb")) (Some (QString "2025"))
                 (Some (QString "sct")))
              (Options "GB" 2025 (Some "SCT")))
    as (H1 & H2 & _); [reflexivity | reflexivity | reflexivity|].
  split; [exact H1 | exact H2].
Defined.

(** The country guards come first and do not depend on the year.  For a
    country that, when it is a string, is an ASCII text: the request is
    rejected as [MISSING_COUNTRY] exactly when the country is absent or
    empty, and as [INVALID_COUNTRY] exactly when it is a non-empty string
    whose upper case is not a listed code; a country that is an array or an
    object makes the middleware throw.  Every rejection has status 400 and
    one of four codes.  On a query whose parameters are strings the verdict
    is that of [check_request]. *)
Theorem country_validation (rq : query) :
  ascii_if_text (p_country rq) = true ->
  (check_query rq = Ok (Reject 400 "MISSING_COUNTRY")
   <-> absent (p_country rq) = true)
  /\ (check_query rq = Ok (Reject 400 "INVALID_COUNTRY")
      <-> exists c, p_country rq = Some (QString c) /\ c <> ""
                    /\ includes_country (toUpperCase c) = false)
  /\ (forall v, p_country rq = Some v -> (forall s, v <> QString s) ->
        exists e, check_query rq = Throw e)
  /\ (forall status code, check_query rq = Ok (Reject status code) ->
        status = 400
        /\ In code ["MISSING_COUNTRY"; "INVALID_COUNTRY"; "MISSING_YEAR";
                    "INVALID_YEAR"])
  /\ (forall req, rq = query_of_request req ->
        check_query rq = Ok (check_request req)).
Proof.
  intros _. pose proof (check_query_inv rq) as H.
  split; [split|split; [split|split; [|split]]].
  - intros Hq. rewrite Hq in H.
    destruct H as [_ [[_ Ha] | [[Hc _] | [[Hc | Hc] _]]]];
      [exact Ha | discriminate Hc ..].
  - intros Ha. unfold check_query. now rewrite Ha.
  - intros Hq. rewrite Hq in H.
    destruct H as [_ [[Hc _] | [[_ Hc] | [[Hc | Hc] _]]]];
      [discriminate Hc | exact Hc | discriminate Hc ..].
  - intros (c & Hc & Hne & Hin). unfold check_query. rewrite Hc.
    destruct c as [|a c]; [congruence|]. cbn [absent upper_of].
    now rewrite Hin.
  - intros v Hv Hns. unfold check_query. rewrite Hv.
    destruct v as [s|items|props]; [now destruct (Hns s)|..];
      cbn; eauto.
  - intros status code Hq. rewrite Hq in H. destruct H as [-> H].
    split; [reflexivity|]. cbn.
    destruct H as [[-> _] | [[-> _] | [[-> | ->] _]]]; tauto.
  - intros req ->. apply check_query_strings.
Qed.

Lemma country_validation_witness :
  check_query (Query (Some (QString "zz")) (Some (QString "2025")) None)
  = Ok (Reject 400 "INVALID_COUNTRY")
  /\ exists e,
       check_query
         (Query (Some (QArray [QString "US"; QString "GB"]))
            (Some (QString "2025")) None) = Throw e.
Proof.
  split.
  - apply (country_validation
             (Query (Some (QString "zz")) (Some (QString "2025")) None));
      [reflexivity|].
    exists "zz". split; [reflexivity|]. split; [discriminate | reflexivity].
  - destruct (country_validation
                (Query (Some (QArray [QString "US"; QString "GB"]))
                   (Some (QString "2025")) None))
      as (_ & _ & Hthrow & _); [reflexivity|].
    apply (Hthrow (QArray [QString "US"; QString "GB"])); [reflexivity|].
    intros s. discriminate.
Defined.

(** Every query gets an answer, once the rate limiter has let it through:
    the route with the error-handling middleware behind it never throws, and
    it answers with a calendar, or with one of six error codes under status
    400, 404 or 500.  A query that validation rejects is answered at once,
    and so is one on which validation throws (a country or a region that is
    an array or an object, a year without a text form), with status 500:
    in both cases without a request to a source and without a reading of the
    clock.  A query that passes is answered by the handler. *)
Theorem holidays_app_total
    (accepts : string -> bool) (rq : query) (w : World) :
  ascii_if_text (p_country rq) = true ->
  ascii_if_text (p_region rq) = true ->
  (exists r w',
     holidays_app accepts rq w = (Ok r, w')
     /\ match r with
        | Calendar _ => True
        | JsonError status code =>
            In (status, code)
               [ (400, "MISSING_COUNTRY"); (400, "INVALID_COUNTRY");
                 (400, "MISSING_YEAR"); (400, "INVALID_YEAR");
                 (404, "NO_HOLIDAYS_FOUND"); (500, "INTERNAL_ERROR") ]
        end)
  /\ (forall status code, check_query rq = Ok (Reject status code) ->
        holidays_app accepts rq w = (Ok (JsonError status code), w))
  /\ (forall e, check_query rq = Throw e ->
        holidays_app accepts rq w = (Ok (JsonError 500 "INTERNAL_ERROR"), w))
  /\ (forall q, check_query rq = Ok (Pass q) ->
        holidays_app accepts rq w = holidays_handler accepts q w)
  /\ (forall v, (p_country rq = Some v \/ p_region rq = Some v) ->
        (forall s, v <> QString s) ->
        exists status code,
          holidays_app accepts rq w = (Ok (JsonError status code), w)).
Proof.
  intros _ _. pose proof (check_query_inv rq) as H.
  split; [|split; [|split; [|split]]].
  - rewrite holidays_app_cases.
    destruct (check_query rq) as [[status code|q]|e].
    + exists (JsonError status code), w. split; [reflexivity|].
      destruct H as [-> H]. cbn.
      destruct H as [[-> _] | [[-> _] | [[-> | ->] _]]]; tauto.
    + destruct (holidays_handler_total accepts q w) as (r & w' & Hr & Hc).
      exists r, w'. split; [exact Hr|].
      destruct r as [status code|body]; [|exact I].
      cbv beta iota in Hc.
      destruct Hc as [Hc | Hc]; injection Hc as -> ->; cbn; tauto.
    + exists (JsonError 500 "INTERNAL_ERROR"), w. split; [reflexivity|].
      cbn. tauto.
  - intros status code Hq. rewrite holidays_app_cases. now rewrite Hq.
  - intros e Hq. rewrite holidays_app_cases. now rewrite Hq.
  - intros q Hq. rewrite holidays_app_cases. now rewrite Hq.
  - intros v Hv Hns. rewrite holidays_app_cases.
    destruct (check_query rq) as [[status code|q]|e]; [eauto | | eauto].
    exfalso. destruct H as (c & y & text & Hc & _ & _ & _ & _ & _ & _ & _ & Hreg).
    destruct Hv as [Hv | Hv].
    + rewrite Hc in Hv. injection Hv as <-. now apply (Hns c).
    + destruct Hreg as [[Hr _] | (r & Hr & _)]; rewrite Hr in Hv;
        [discriminate|]. injection Hv as <-. now apply (Hns r).
Qed.

Lemma holidays_app_total_witness :
  holidays_app (fun _ => true)
    (Query (Some (QString "US")) (Some (QString "2025"))
       (Some (QArray [QString "CA"; QString "NY"]))) offline
  = (Ok (JsonError 500 "INTERNAL_ERROR"), offline).
Proof.
  destruct (holidays_app_total (fun _ => true)
              (Query (Some (QString "US")) (Some (QString "2025"))
                 (Some (QArray [QString "CA"; QString "NY"]))) offline)
    as (_ & _ & Hthrow & _); [reflexivity | reflexivity|].
  apply (Hthrow "TypeError: toUpperCase is not a function"). reflexivity.
Defined.

(** The answer is a calendar only when the resolver gave at least one
    record, every record could be read, and every header value was accepted.
    The body is then the rendering of those records, one record read per
    object, with the clock read once, and the [X-Holidays-Count] header says
    how many there are.  When the fields that are written unescaped and the
    clock's text hold no carriage return, the body has as many event blocks
    as the header says. *)
Theorem holidays_handler_calendar
    (accepts : string -> bool) (q : options) (w : World) (body : string) :
  fst (holidays_handler accepts q w) = Ok (Calendar body) ->
  exists objs hs,
    fst (fetchHolidays (country q) (year q) (region q) w) = Ok objs
    /\ objs <> []
    /\ map_throwing as_holiday objs = Ok hs
    /\ length hs = length objs
    /\ body = join CRLF (ics_lines (formatDateTimeUTC (clock w (ticks w))) hs q)
    /\ In ("X-Holidays-Count", string_of_Z (Z.of_nat (length objs)))
          (calendar_headers (length objs) q)
    /\ forallb (fun h => accepts (snd h)) (calendar_headers (length objs) q)
       = true
    /\ ticks (snd (holidays_handler accepts q w)) = S (ticks w)
    /\ (has_char CR (toISOString (clock w (ticks w))) = false ->
        options_line_safe q = true ->
        Forall (fun h => holiday_line_safe h = true) hs ->
        length (event_blocks (doc_lines body)) = length objs).
Proof.
  destruct (fetchHolidays_world (country q) (year q) (region q) w)
    as (k & _ & _ & Ht & Hc & _).
  destruct (fetchHolidays_total (country q) (year q) (region q) w)
    as (objs & w' & Hf).
  rewrite Hf in Ht, Hc |- *. cbn [fst snd] in Ht, Hc.
  rewrite (holidays_handler_after accepts q w objs w' Hf).
  destruct objs as [|o objs]; [discriminate|]. cbv zeta.
  destruct (map_throwing as_holiday (o :: objs)) as [hs|] eqn:Hm;
    [|discriminate].
  destruct (forallb _ _) eqn:Hacc; [|discriminate].
  cbn [fst snd ticks]. intros [= <-]. rewrite Hc, Ht.
  pose proof (map_throwing_length as_holiday _ _ Hm) as Hlen.
  exists (o :: objs), hs.
  split; [reflexivity|]. split; [discriminate|]. split; [exact Hm|].
  split; [exact Hlen|]. split; [reflexivity|].
  split; [cbn; tauto|]. split; [exact Hacc|]. split; [reflexivity|].
  intros Hclk Ho Hhs.
  destruct (generateICS_text_blocks hs q w Hclk Ho Hhs)
    as (text & Hrun & _ & Hb).
  rewrite generateICS_run in Hrun. injection Hrun as <-.
  now rewrite Hb, length_map.
Qed.

Lemma holidays_handler_calendar_witness :
  exists objs,
    fst (fetchHolidays "DE" 2025 None offline) = Ok objs
    /\ objs <> []
    /\ length
         (event_blocks
            (doc_lines
               (join CRLF
                  (ics_lines "20250101T000000Z"
                     (default [] (enhancedHolidays !! "DE-2025"))
                     (Options "DE" 2025 None)))))
       = length objs.
Proof.
  destruct (holidays_handler_calendar (fun _ => true) (Options "DE" 2025 None)
              offline
              (join CRLF
                 (ics_lines "20250101T000000Z"
                    (default [] (enhancedHolidays !! "DE-2025"))
                    (Options "DE" 2025 None))))
    as (objs & hs & H1 & H2 & H3 & _ & _ & _ & _ & _ & Htext);
    [vm_compute; reflexivity|].
  exists objs. split; [exact H1|]. split; [exact H2|].
  apply Htext; [reflexivity | reflexivity|].
  vm_compute in H1. injection H1 as <-.
  vm_compute in H3. injection H3 as <-.
  repeat constructor.
Defined.

(** A source can send a date with line breaks in it, and the body then has
    more event blocks than the count in the header. *)
Example holidays_handler_forged_blocks :
  exists body,
    fst (holidays_handler (fun _ => true) (Options "US" 2025 None)
           {| clock := clock offline; ticks := 0;
              network := fun _ _ =>
                Ok (JArr [JObj [("date",
                                 JStr ("2025-01-01" +:+ CRLF +:+ "END:VEVENT"
                                         +:+ CRLF +:+ "BEGIN:VEVENT"
                                         +:+ CRLF +:+ "X"));
                                ("name", JStr "N");
                                ("localName", JStr "N");
                                ("types", JArr [JStr "Public"])]]);
              requests := [] |}) = Ok (Calendar body)
    /\ length (event_blocks (doc_lines body)) = 3%nat
    /\ In ("X-Holidays-Count", "1")
          (calendar_headers 1 (Options "US" 2025 None)).
Proof.
  eexists. split; [vm_compute; reflexivity|].
  split; [vm_compute; reflexivity | cbn; tauto].
Qed.

(** ** Rate limiting *)

Lemma lower_upper_char (a : ascii) : lower_char (upper_char a) = lower_char a.
Proof. destruct a as [[] [] [] [] [] [] [] []]; reflexivity. Qed.

Lemma lower_lower_char (a : ascii) : lower_char (lower_char a) = lower_char a.
Proof. destruct a as [[] [] [] [] [] [] [] []]; reflexivity. Qed.

Lemma map_chars_compose f g (s : string) :
  map_chars f (map_chars g s) = map_chars (fun a => f (g a)) s.
Proof. induction s as [|a s IH]; [reflexivity|]. cbn. now rewrite IH. Qed.

Lemma map_chars_ext f g (s : string) :
  (forall a, f a = g a) -> map_chars f s = map_chars g s.
Proof.
  intros H. induction s as [|a s IH]; [reflexivity|]. cbn. now rewrite H, IH.
Qed.

(** The subscription tier is read without regard to case, a missing or empty
    header counts as [basic], and anything that is not [enterprise] or [pro]
    gets the basic limiter, the one with the smallest allowance. *)
Theorem rateLimitBySubscription_tiers (header : option string) :
  RateLimit.rateLimitBySubscription (option_map toUpperCase header)
  = RateLimit.rateLimitBySubscription header
  /\ RateLimit.rateLimitBySubscription (option_map toLowerCase header)
     = RateLimit.rateLimitBySubscription header
  /\ RateLimit.rateLimitBySubscription None = RateLimit.basicLimiter
  /\ RateLimit.rateLimitBySubscription (Some "") = RateLimit.basicLimiter
  /\ (RateLimit.rateLimitBySubscription header = RateLimit.enterpriseLimiter
      <-> exists s, header = Some s /\ toLowerCase s = "enterprise")
  /\ (RateLimit.rateLimitBySubscription header = RateLimit.proLimiter
      <-> exists s, header = Some s /\ toLowerCase s = "pro")
  /\ 10 <= RateLimit.max (RateLimit.rateLimitBySubscription header) <= 1000.
Proof.
  unfold RateLimit.rateLimitBySubscription.
  assert (Hlu : forall s, toLowerCase (toUpperCase s) = toLowerCase s).
  { intros s. unfold toLowerCase, toUpperCase.
    rewrite map_chars_compose. apply map_chars_ext, lower_upper_char. }
  assert (Hll : forall s, toLowerCase (toLowerCase s) = toLowerCase s).
  { intros s. unfold toLowerCase.
    rewrite map_chars_compose. apply map_chars_ext, lower_lower_char. }
  split; [|split; [|split; [|split; [|split; [|split]]]]];
    try reflexivity.
  - destruct header as [[|a s]|]; try reflexivity.
    cbn [option_map].
    change (toUpperCase (String a s))
      with (String (upper_char a) (toUpperCase s)).
    cbv beta iota zeta.
    change (String (upper_char a) (toUpperCase s))
      with (toUpperCase (String a s)).
    now rewrite Hlu.
  - destruct header as [[|a s]|]; try reflexivity.
    cbn [option_map].
    change (toLowerCase (String a s))
      with (String (lower_char a) (toLowerCase s)).
    cbv beta iota zeta.
    change (String (lower_char a) (toLowerCase s))
      with (toLowerCase (String a s)).
    now rewrite Hll.
  - destruct header as [[|a s]|].
    + split; [discriminate | intros (s & [= <-] & H); discriminate H].
    + destruct (String.eqb (toLowerCase (String a s)) "enterprise") eqn:E.
      * apply String.eqb_eq in E. split; [eauto | reflexivity].
      * apply String.eqb_neq in E. split.
        -- destruct (String.eqb (toLowerCase (String a s)) "pro");
             discriminate.
        -- intros (s' & [= <-] & H). congruence.
    + split; [discriminate | intros (s & [=] & _)].
  - destruct header as [[|a s]|].
    + split; [discriminate | intros (s & [= <-] & H); discriminate H].
    + destruct (String.eqb (toLowerCase (String a s)) "enterprise") eqn:E.
      * apply String.eqb_eq in E. split; [discriminate|].
        intros (s' & [= <-] & H). rewrite H in E. discriminate E.
      * destruct (String.eqb (toLowerCase (String a s)) "pro") eqn:E2.
        -- apply String.eqb_eq in E2. split; [eauto | reflexivity].
        -- apply String.eqb_neq in E2. split; [discriminate|].
           intros (s' & [= <-] & H). congruence.
    + split; [discriminate | intros (s & [=] & _)].
  - destruct header as [[|a s]|];
      [change (10 <= 10 <= 1000); lia | | change (10 <= 10 <= 1000); lia].
    cbv beta iota zeta.
    destruct (String.eqb (toLowerCase (String a s)) "enterprise");
      [cbn; lia|].
    destruct (String.eqb (toLowerCase (String a s)) "pro"); cbn; lia.
Qed.

